(** * javascript-blockchain: Block, Blockchain, proof of work and validation

    The repository holds successive versions of the same two classes.
    This is a shallow embedding of the last one, the only one with proof
    of work and validation (classes [Block] and [Blockchain]: constructor,
    calculateHash, mineBlock, createGenesisBlock, getLatestBlock, addBlock,
    isChainValid), followed by the properties of the specification.

    The digest primitive [require('crypto-js/sha256')] is a dependency of
    the program, not part of it.  It is embedded as SHA-256 of FIPS 180-4
    applied to the bytes of the message, rendered in lowercase hexadecimal,
    so that every digest below is the one the program prints. *)

From Stdlib Require Import ZArith Ascii String DecimalString Bool Lia.
From stdpp Require Import base list.

Local Open Scope Z_scope.

(** ** The digest primitive *)

Module SHA256.

(** 32-bit words are integers in [0, 2^32); every operation that can
    leave that range is cut back with [wrap32]. *)
Definition wrap32 (x : Z) : Z := Z.land x 4294967295.

Definition add32 (a b : Z) : Z := wrap32 (a + b).

Definition rotr (n x : Z) : Z :=
  wrap32 (Z.lor (Z.shiftr x n) (Z.shiftl x (32 - n))).

Definition Ch (x y z : Z) : Z :=
  Z.lxor (Z.land x y) (Z.land (Z.lxor x 4294967295) z).

Definition Maj (x y z : Z) : Z :=
  Z.lxor (Z.lxor (Z.land x y) (Z.land x z)) (Z.land y z).

Definition bigSigma0 (x : Z) : Z :=
  Z.lxor (Z.lxor (rotr 2 x) (rotr 13 x)) (rotr 22 x).

Definition bigSigma1 (x : Z) : Z :=
  Z.lxor (Z.lxor (rotr 6 x) (rotr 11 x)) (rotr 25 x).

Definition smallSigma0 (x : Z) : Z :=
  Z.lxor (Z.lxor (rotr 7 x) (rotr 18 x)) (Z.shiftr x 3).

Definition smallSigma1 (x : Z) : Z :=
  Z.lxor (Z.lxor (rotr 17 x) (rotr 19 x)) (Z.shiftr x 10).

(** Round constants: the first 32 bits of the fractional parts of the
    cube roots of the first 64 primes, in decimal. *)
Definition K : list Z := [
  1116352408; 1899447441; 3049323471; 3921009573; 961987163; 1508970993;
  2453635748; 2870763221; 3624381080; 310598401; 607225278; 1426881987;
  1925078388; 2162078206; 2614888103; 3248222580; 3835390401; 4022224774;
  264347078; 604807628; 770255983; 1249150122; 1555081692; 1996064986;
  2554220882; 2821834349; 2952996808; 3210313671; 3336571891; 3584528711;
  113926993; 338241895; 666307205; 773529912; 1294757372; 1396182291;
  1695183700; 1986661051; 2177026350; 2456956037; 2730485921; 2820302411;
  3259730800; 3345764771; 3516065817; 3600352804; 4094571909; 275423344;
  430227734; 506948616; 659060556; 883997877; 958139571; 1322822218;
  1537002063; 1747873779; 1955562222; 2024104815; 2227730452; 2361852424;
  2428436474; 2756734187; 3204031479; 3329325298 ].

(** The eight working variables a..h, also used for the chaining value. *)
Record regs := Regs {
  ra : Z; rb : Z; rc : Z; rd : Z; re : Z; rf : Z; rg : Z; rh : Z }.

(** Initial chaining value: fractional parts of the square roots of the
    first eight primes. *)
Definition H0 : regs :=
  Regs 1779033703 3144134277 1013904242 2773480762
       1359893119 2600822924 528734635 1541459225.

Definition round (s : regs) (k w : Z) : regs :=
  let t1 :=
    add32 (add32 (add32 (add32 (rh s) (bigSigma1 (re s)))
                        (Ch (re s) (rf s) (rg s))) k) w in
  let t2 := add32 (bigSigma0 (ra s)) (Maj (ra s) (rb s) (rc s)) in
  Regs (add32 t1 t2) (ra s) (rb s) (rc s)
       (add32 (rd s) t1) (re s) (rf s) (rg s).

(** The message schedule is kept as a window of sixteen words
    W[t] .. W[t+15]; [schedule_next] is W[t+16]. *)
Definition schedule_next (win : list Z) : Z :=
  match win with
  | w0 :: w1 :: _ :: _ :: _ :: _ :: _ :: _ :: _ :: w9
       :: _ :: _ :: _ :: _ :: w14 :: _ =>
      add32 (add32 (add32 (smallSigma1 w14) w9) (smallSigma0 w1)) w0
  | _ => 0
  end.

Fixpoint rounds (ks win : list Z) (s : regs) : regs :=
  match ks, win with
  | k :: ks', w0 :: rest =>
      rounds ks' (rest ++ [schedule_next win]) (round s k w0)
  | _, _ => s
  end.

Definition compress (h : regs) (blk : list Z) : regs :=
  let s := rounds K blk h in
  Regs (add32 (ra h) (ra s)) (add32 (rb h) (rb s))
       (add32 (rc h) (rc s)) (add32 (rd h) (rd s))
       (add32 (re h) (re s)) (add32 (rf h) (rf s))
       (add32 (rg h) (rg s)) (add32 (rh h) (rh s)).

Fixpoint bytes_of_string (s : string) : list Z :=
  match s with
  | EmptyString => []
  | String c rest => Z.of_N (N_of_ascii c) :: bytes_of_string rest
  end.

(** Padding: a single 1 bit, zeros up to 56 modulo 64 bytes, then the
    bit length as a 64-bit big-endian integer. *)
Definition pad (msg : list Z) : list Z :=
  let n := length msg in
  let zeros := ((64 - (n + 9) mod 64) mod 64)%nat in
  let bits := 8 * Z.of_nat n in
  msg ++ 128 :: replicate zeros 0
      ++ map (fun sh => Z.land (Z.shiftr bits sh) 255)
             [56; 48; 40; 32; 24; 16; 8; 0].

Fixpoint words (bs : list Z) : list Z :=
  match bs with
  | b0 :: b1 :: b2 :: b3 :: rest =>
      Z.lor (Z.lor (Z.shiftl b0 24) (Z.shiftl b1 16))
            (Z.lor (Z.shiftl b2 8) b3) :: words rest
  | _ => []
  end.

(** One compression per group of sixteen words; [n] bounds the number of
    groups. *)
Fixpoint absorb (n : nat) (ws : list Z) (h : regs) : regs :=
  match n, ws with
  | S n', _ :: _ => absorb n' (drop 16 ws) (compress h (take 16 ws))
  | _, _ => h
  end.

Definition hex_digit (d : Z) : ascii :=
  match String.get (Z.to_nat d) "0123456789abcdef" with
  | Some c => c
  | None => "0"%char
  end.

Definition hex_word (w : Z) (rest : string) : string :=
  let nib sh := hex_digit (Z.land (Z.shiftr w sh) 15) in
  String (nib 28) (String (nib 24) (String (nib 20) (String (nib 16)
    (String (nib 12) (String (nib 8) (String (nib 4) (String (nib 0)
      rest))))))).

Definition hex_regs (s : regs) : string :=
  hex_word (ra s) (hex_word (rb s) (hex_word (rc s) (hex_word (rd s)
    (hex_word (re s) (hex_word (rf s) (hex_word (rg s) (hex_word (rh s)
      EmptyString))))))).

(** [SHA256(message).toString()] of the program. *)
Definition digest (message : string) : string :=
  let ws := words (pad (bytes_of_string message)) in
  hex_regs (absorb (length ws) ws H0).

End SHA256.

Local Open Scope string_scope.

(** ** JavaScript values used by the program *)

Module JS.

(** Values passed for [index] and [timestamp]: the program uses both
    numbers ([0]) and strings (["1"], ["23/01/2018"]).  Numbers are
    integers in the range where JavaScript arithmetic is exact and the
    decimal rendering has no exponent. *)
Inductive value :=
| VNum (n : Z)
| VStr (s : string).

(** Number::toString for an integer of absolute value below 10^21, where
    JavaScript writes all the digits; from 10^21 on it uses exponent
    notation, which is outside this function. *)
Definition number_to_string (n : Z) : string :=
  DecimalString.NilZero.string_of_int (Z.to_int n).

Definition to_string (v : value) : string :=
  match v with
  | VNum n => number_to_string n
  | VStr s => s
  end.

(** The binary [+]: numeric addition on two numbers, concatenation as
    soon as one operand is a string.  The sum of two numbers is exact as
    long as it stays below 2^53 in absolute value; JavaScript rounds
    beyond. *)
Definition add (a b : value) : value :=
  match a, b with
  | VNum x, VNum y => VNum (x + y)
  | _, _ => VStr (to_string a ++ to_string b)
  end.

(** Values the [nonce] property takes: absent while the constructor
    runs, the string ['0'] the constructor stores, then the numbers that
    [this.nonce++] produces ([undefined++] is NaN). *)
Inductive nonce :=
| NonceUndefined
| NonceNaN
| NonceStr0
| NonceNum (n : N).

Definition nonce_to_string (v : nonce) : string :=
  match v with
  | NonceUndefined => "undefined"
  | NonceNaN => "NaN"
  | NonceStr0 => "0"
  | NonceNum n => number_to_string (Z.of_N n)
  end.

(** [v++]: the operand is converted to a number first, so the string
    ['0'] becomes the number 1.  Counters stay below 2^53, where adding 1
    is exact. *)
Definition increment (v : nonce) : nonce :=
  match v with
  | NonceUndefined => NonceNaN
  | NonceNaN => NonceNaN
  | NonceStr0 => NonceNum 1
  | NonceNum n => NonceNum (n + 1)
  end.

(** Payloads: the values [JSON.stringify] distinguishes.  An object is
    the list of its own enumerable properties in enumeration order. *)
#[local] Unset Elimination Schemes.
Inductive json :=
| JUndefined
| JNull
| JBool (b : bool)
| JNum (n : Z)
| JStr (s : string)
| JArr (items : list json)
| JObj (props : list (string * json)).
#[local] Set Elimination Schemes.

Definition dquote : ascii := "034"%char.
Definition backslash : ascii := "092"%char.

Definition hex4 (n : N) : string :=
  let d k := SHA256.hex_digit (Z.of_N (N.land (N.shiftr n k) 15)) in
  String (d 12%N) (String (d 8%N) (String (d 4%N) (String (d 0%N) ""))).

(** QuoteJSONString, one character. *)
Definition escape_char (c : ascii) : string :=
  let n := N_of_ascii c in
  if Ascii.eqb c dquote then String backslash (String dquote "")
  else if Ascii.eqb c backslash then String backslash (String backslash "")
  else if N.eqb n 8 then String backslash "b"
  else if N.eqb n 9 then String backslash "t"
  else if N.eqb n 10 then String backslash "n"
  else if N.eqb n 12 then String backslash "f"
  else if N.eqb n 13 then String backslash "r"
  else if N.ltb n 32 then String backslash (String "u" (hex4 n))
  else String c "".

Fixpoint escape (s : string) : string :=
  match s with
  | EmptyString => ""
  | String c rest => escape_char c ++ escape rest
  end.

Definition quote (s : string) : string :=
  String dquote (escape s ++ String dquote "").

Fixpoint join (parts : list string) : string :=
  match parts with
  | [] => ""
  | [p] => p
  | p :: rest => p ++ "," ++ join rest
  end.

(** [JSON.stringify(v)]; [None] is the result [undefined].  Inside an
    array [undefined] is written as null, inside an object a property
    whose value is [undefined] is left out. *)
Fixpoint stringify (v : json) : option string :=
  match v with
  | JUndefined => None
  | JNull => Some "null"
  | JBool b => Some (if b then "true" else "false")
  | JNum n => Some (number_to_string n)
  | JStr s => Some (quote s)
  | JArr items =>
      let fix elements (l : list json) : list string :=
        match l with
        | [] => []
        | x :: rest =>
            match stringify x with
            | Some s => s
            | None => "null"
            end :: elements rest
        end in
      Some ("[" ++ join (elements items) ++ "]")
  | JObj props =>
      let fix members (l : list (string * json)) : list string :=
        match l with
        | [] => []
        | (k, x) :: rest =>
            match stringify x with
            | Some s => (quote k ++ ":" ++ s) :: members rest
            | None => members rest
            end
        end in
      Some ("{" ++ join (members props) ++ "}")
  end.

(** A string operand followed by [+ JSON.stringify(data)]. *)
Definition stringified_to_string (r : option string) : string :=
  match r with
  | Some s => s
  | None => "undefined"
  end.

End JS.

Import JS.

(** ** class Block *)

Record Block := mkBlock {
  index : value;
  timestamp : value;
  data : json;
  previousHash : string;
  hash : string;
  nonce : JS.nonce
}.

Definition set_data (this : Block) (v : json) : Block :=
  mkBlock (index this) (timestamp this) v (previousHash this)
          (hash this) (nonce this).

Definition set_previousHash (this : Block) (v : string) : Block :=
  mkBlock (index this) (timestamp this) (data this) v
          (hash this) (nonce this).

Definition set_hash (this : Block) (v : string) : Block :=
  mkBlock (index this) (timestamp this) (data this) (previousHash this)
          v (nonce this).

Definition set_nonce (this : Block) (v : JS.nonce) : Block :=
  mkBlock (index this) (timestamp this) (data this) (previousHash this)
          (hash this) v.

(** The argument of SHA256 in [calculateHash]:
    [this.index + this.timestamp + this.previousHash
     + JSON.stringify(this.data) + this.nonce], associated to the left. *)
Definition hash_input (this : Block) : string :=
  to_string (JS.add (index this) (timestamp this))
  ++ previousHash this
  ++ stringified_to_string (stringify (data this))
  ++ nonce_to_string (nonce this).

Definition calculateHash (this : Block) : string :=
  SHA256.digest (hash_input this).

(** [new Block(index, timestamp, data, previousHash = '')].  The
    assignments are made in the order of the source: [hash] is computed
    while [nonce] is still absent, [nonce] is stored afterwards. *)
Definition new_Block (index timestamp : value) (data : json)
    (previousHash : option string) : Block :=
  let this :=
    mkBlock index timestamp data
            (match previousHash with Some p => p | None => "" end)
            "" NonceUndefined in
  let this := set_hash this (calculateHash this) in
  set_nonce this NonceStr0.

(** [Array(difficulty + 1).join("0")], for the difficulties at which the
    array and the string can be built ([target_exists] below); beyond
    them the expression throws a RangeError, which this function, total in
    [difficulty], does not show. *)
Fixpoint target (difficulty : nat) : string :=
  match difficulty with
  | O => ""
  | S d => String "0" (target d)
  end.

(** What a call does within a bounded number of loop iterations. *)
Inductive outcome (A : Type) :=
| Returns (a : A)
| Throws
| OutOfFuel.
Arguments Returns {A} a.
Arguments Throws {A}.
Arguments OutOfFuel {A}.

(** [mineBlock(difficulty)]: the [while] loop, one unit of [fuel] per
    iteration; the test is made before the body, as in the source.  The
    result is the block as the call leaves it ([console.log] only
    prints). *)
Fixpoint mineBlock (fuel : nat) (difficulty : nat) (this : Block)
    : outcome Block :=
  if negb (String.eqb (substring 0 difficulty (hash this)) (target difficulty))
  then
    match fuel with
    | O => OutOfFuel
    | S fuel' =>
        let this := set_nonce this (increment (nonce this)) in
        let this := set_hash this (calculateHash this) in
        mineBlock fuel' difficulty this
    end
  else Returns this.

(** ** class Blockchain *)

Record Blockchain := mkBlockchain {
  chain : list Block;
  difficulty : nat
}.

Definition createGenesisBlock : Block :=
  new_Block (VNum 0) (VStr "23/01/2018") (JStr "Genesis block data")
            (Some "0").

Definition new_Blockchain : Blockchain :=
  mkBlockchain [createGenesisBlock] 5.

(** [this.chain[this.chain.length - 1]]; [None] is [undefined]. *)
Definition getLatestBlock (this : Blockchain) : option Block :=
  chain this !! (length (chain this) - 1)%nat.

(** [addBlock(newBlock)]: reading [.hash] of [undefined] throws when the
    array is empty.  The source updates the candidate in place and pushes
    the same object; blocks are values here, which is the behaviour of the
    source for a candidate that is not already an element of the array,
    such as the [new Block(...)] of every call in the source.  A
    candidate that is already in the array would have its earlier
    occurrence rewritten too, which this function does not show. *)
Definition addBlock (fuel : nat) (this : Blockchain) (newBlock : Block)
    : outcome Blockchain :=
  match getLatestBlock this with
  | None => Throws
  | Some latest =>
      let newBlock := set_previousHash newBlock (hash latest) in
      match mineBlock fuel (difficulty this) newBlock with
      | Returns newBlock =>
          Returns (mkBlockchain (chain this ++ [newBlock]) (difficulty this))
      | Throws => Throws
      | OutOfFuel => OutOfFuel
      end
  end.

(** The [for] loop of [isChainValid], entered at index [i] with [steps]
    iterations left.  [isChainValid] enters it with
    [i + steps = length chain], so both array reads succeed and the last
    branch of the inner [match] is never taken. *)
Fixpoint isChainValid_loop (chain : list Block) (i : nat) (steps : nat)
    : bool :=
  match steps with
  | O => true
  | S steps' =>
      match chain !! i, chain !! (i - 1)%nat with
      | Some currentBlock, Some previousBlock =>
          if negb (String.eqb (hash currentBlock)
                              (calculateHash currentBlock))
          then false
          else if negb (String.eqb (previousHash currentBlock)
                                   (hash previousBlock))
          then false
          else isChainValid_loop chain (S i) steps'
      | _, _ => false
      end
  end.

Definition isChainValid (this : Blockchain) : bool :=
  isChainValid_loop (chain this) 1 (length (chain this) - 1).


(** ** Names for the parts of the loops *)

(** The exit test of the loop of [mineBlock]. *)
Definition meets_target (d : nat) (b : Block) : bool :=
  String.eqb (substring 0 d (hash b)) (target d).

(** One iteration of the body of that loop. *)
Definition mine_step (b : Block) : Block :=
  let b := set_nonce b (increment (nonce b)) in
  set_hash b (calculateHash b).

(** The two checks of one iteration of [isChainValid], at index [j]. *)
Definition checks_pass (l : list Block) (j : nat) : Prop :=
  exists currentBlock previousBlock,
    l !! j = Some currentBlock /\ l !! (j - 1)%nat = Some previousBlock
    /\ hash currentBlock = calculateHash currentBlock
    /\ previousHash currentBlock = hash previousBlock.

(** ** Operations of callers: tampering and construction sequences *)

(** [c.chain[i].data = v], as in the tampering test of the source.  The
    statements below use it at indices inside the array; outside, the
    assignment throws in JavaScript and [alter] leaves the list as it is. *)
Definition tamper_data (c : Blockchain) (i : nat) (v : json) : Blockchain :=
  mkBlockchain (alter (fun b => set_data b v) i (chain c)) (difficulty c).

(** [c.chain[i].hash = c.chain[i].calculateHash()]. *)
Definition recalculate (c : Blockchain) (i : nat) : Blockchain :=
  mkBlockchain (alter (fun b => set_hash b (calculateHash b)) i (chain c))
               (difficulty c).

(** Assignments to [index], [timestamp] and [data] of the genesis block. *)
Definition tamper_genesis (c : Blockchain) (idx ts : value) (v : json)
    : Blockchain :=
  mkBlockchain
    (alter (fun g => mkBlock idx ts v (previousHash g) (hash g) (nonce g))
           0%nat (chain c))
    (difficulty c).

(** The arguments of one [new Block(...)] of a construction sequence. *)
Record block_args := mkArgs {
  arg_index : value;
  arg_timestamp : value;
  arg_data : json;
  arg_previousHash : option string
}.

Definition block_of_args (a : block_args) : Block :=
  new_Block (arg_index a) (arg_timestamp a) (arg_data a)
            (arg_previousHash a).

(** [c.addBlock(new Block(...))] for each entry, in order. *)
Fixpoint addBlocks (fuel : nat) (c : Blockchain) (l : list block_args)
    : outcome Blockchain :=
  match l with
  | [] => Returns c
  | a :: rest =>
      match addBlock fuel c (block_of_args a) with
      | Returns c' => addBlocks fuel c' rest
      | Throws => Throws
      | OutOfFuel => OutOfFuel
      end
  end.

(** A construction sequence: a fresh chain, its difficulty, the blocks. *)
Definition build (fuel : nat) (d : nat) (l : list block_args)
    : outcome Blockchain :=
  addBlocks fuel (mkBlockchain (chain new_Blockchain) d) l.

Definition digests (c : Blockchain) : list string := map hash (chain c).


(** ** Blocks and chains of the examples *)

Definition amount (n : Z) : json := JObj [("amount", JNum n)].

(** The two blocks of the test at the end of the source. *)
Definition demo_args : list block_args :=
  [ mkArgs (VStr "1") (VStr "21/01/2018") (amount 6) None;
    mkArgs (VStr "2") (VStr "22/01/2018") (amount 2) None ].

(** The chain that test leaves at difficulty 5.  The search of block 1
    stops at nonce 666377 and that of block 2 at nonce 2239187; the
    searches themselves (2.9 million digests) are not replayed here, the
    examples below check the last iteration of each and the validity of
    the chain. *)
Definition demo_block1 : Block :=
  mkBlock (VStr "1") (VStr "21/01/2018") (amount 6)
    "d82f1af7edb68b9b4bf3872669e086e5f14edc8b4920389ba754d7870a3053ba"
    "00000dd4f4fb87c5d5a3afa0a83f6b3f2fca9d635fea087f36ae6ef1755d30f2"
    (NonceNum 666377).

Definition demo_block2 : Block :=
  mkBlock (VStr "2") (VStr "22/01/2018") (amount 2)
    "00000dd4f4fb87c5d5a3afa0a83f6b3f2fca9d635fea087f36ae6ef1755d30f2"
    "00000f4185455c7e4e4d7ee382d9eb10bdecada5311a821099593e73f2eab399"
    (NonceNum 2239187).

Definition demo_chain : Blockchain :=
  mkBlockchain [createGenesisBlock; demo_block1; demo_block2] 5.

(** A block whose digest, as the constructor computes it, already starts
    with five zeros. *)
Definition lucky_block : Block :=
  new_Block (VStr "1") (VStr "21/01/2018") (amount 212375) None.

(** The state [new Blockchain().addBlock(lucky_block)] leaves. *)
Definition lucky_chain : Blockchain :=
  mkBlockchain
    [ createGenesisBlock;
      set_previousHash lucky_block (hash createGenesisBlock) ]
    5.

(** Two blocks whose search stops after one iteration at difficulty 5. *)
Definition quick_args : list block_args :=
  [ mkArgs (VStr "1") (VStr "21/01/2018") (amount 159531) None;
    mkArgs (VStr "2") (VStr "22/01/2018") (amount 1544754) None ].

(** The first of them as [addBlock] hands it to [mineBlock] on a fresh
    chain, and as the search leaves it. *)
Definition quick_candidate : Block :=
  set_previousHash (block_of_args (mkArgs (VStr "1") (VStr "21/01/2018")
                                          (amount 159531) None))
                   (hash createGenesisBlock).

Definition quick_mined : Block := mine_step quick_candidate.

(** The chain [build 1 5 quick_args] returns. *)
Definition quick_chain : Blockchain :=
  Eval vm_compute in
    match build 1 5 quick_args with
    | Returns c => c
    | _ => new_Blockchain
    end.

(** The payload of the first block of [quick_args] with one more property,
    whose value is [undefined]. *)
Definition silent_payload : json :=
  JObj [("amount", JNum 159531); ("memo", JUndefined)].

(** ** Further operations of callers *)

(** [c.chain[i].previousHash = p]. *)
Definition tamper_previousHash (c : Blockchain) (i : nat) (p : string)
    : Blockchain :=
  mkBlockchain (alter (fun b => set_previousHash b p) i (chain c))
               (difficulty c).

(** [c.chain[i].hash = h]. *)
Definition tamper_hash (c : Blockchain) (i : nat) (h : string) : Blockchain :=
  mkBlockchain (alter (fun b => set_hash b h) i (chain c)) (difficulty c).

(** [c.chain.length = n] with [n] at most the length: the blocks from
    index [n] on are removed. *)
Definition truncate (c : Blockchain) (n : nat) : Blockchain :=
  mkBlockchain (take n (chain c)) (difficulty c).

(** The block the search holds after [k] iterations of its loop body. *)
Definition candidate (k : nat) (b : Block) : Block := Nat.iter k mine_step b.

(** The difficulties for which the target string exists.
    [Array(difficulty + 1)] throws a RangeError once [difficulty + 1]
    exceeds 2^32 - 1, and [join] throws one when the string of zeros
    would exceed the string length limit of the engine, of which
    2^28 - 16 is the smallest in use.  [target] is total, so those throws
    are outside the model: a statement that the search is still running,
    or that a call does not throw, is made for these difficulties only. *)
Definition max_difficulty : N := 268435440.

Definition target_exists (d : nat) : Prop := (N.of_nat d <= max_difficulty)%N.






(** ** The version without proof of work

    The earlier version of the two classes: a block has no nonce, and
    [addBlock] recalculates the digest itself after setting
    [previousHash]. *)

Module Plain.

Record Block := mkBlock {
  index : value;
  timestamp : value;
  data : json;
  previousHash : string;
  hash : string
}.

(** [SHA256(this.index + this.timestamp + this.previousHash
            + JSON.stringify(this.data)).toString()]. *)
Definition calculateHash (this : Block) : string :=
  SHA256.digest
    (to_string (JS.add (index this) (timestamp this))
     ++ previousHash this
     ++ stringified_to_string (stringify (data this))).

(** [new Block(index, timestamp, data, previousHash = '')]. *)
Definition new_Block (index timestamp : value) (data : json)
    (previousHash : option string) : Block :=
  let this :=
    mkBlock index timestamp data
            (match previousHash with Some p => p | None => "" end) "" in
  mkBlock index timestamp data (Plain.previousHash this) (calculateHash this).

Record Blockchain := mkBlockchain {
  chain : list Block
}.

Definition createGenesisBlock : Block :=
  new_Block (VNum 0) (VStr "23/01/2018") (JStr "Genesis block data")
            (Some "0").

Definition new_Blockchain : Blockchain := mkBlockchain [createGenesisBlock].

Definition getLatestBlock (this : Blockchain) : option Block :=
  chain this !! (length (chain this) - 1)%nat.

(** [addBlock(newBlock)]; [None] when reading [.hash] of [undefined]
    throws, that is on an empty array.  As in the later version, blocks
    are values: the behaviour of the source for a candidate that is not
    already an element of the array. *)
Definition addBlock (this : Blockchain) (newBlock : Block)
    : option Blockchain :=
  match getLatestBlock this with
  | None => None
  | Some latest =>
      let newBlock :=
        mkBlock (index newBlock) (timestamp newBlock) (data newBlock)
                (hash latest) (hash newBlock) in
      let newBlock :=
        mkBlock (index newBlock) (timestamp newBlock) (data newBlock)
                (previousHash newBlock) (calculateHash newBlock) in
      Some (mkBlockchain (chain this ++ [newBlock]))
  end.

(** [c.addBlock(new Block(...))] for each entry of a list, in order:
    every call receives a new object. *)
Fixpoint addBlocks (c : Blockchain) (l : list block_args)
    : option Blockchain :=
  match l with
  | [] => Some c
  | a :: rest =>
      match addBlock c (new_Block (arg_index a) (arg_timestamp a)
                                  (arg_data a) (arg_previousHash a)) with
      | Some c' => addBlocks c' rest
      | None => None
      end
  end.

(** The two conditions the later version checks in [isChainValid], at
    every index from 1 on. *)
Definition consistent (l : list Block) : Prop :=
  forall i currentBlock previousBlock,
    (1 <= i)%nat ->
    l !! i = Some currentBlock -> l !! (i - 1)%nat = Some previousBlock ->
    hash currentBlock = calculateHash currentBlock
    /\ previousHash currentBlock = hash previousBlock.

End Plain.

(** * Properties *)

(** ** The model on known values *)

(** The published test vector for "abc", and the empty message. *)
Example sha256_abc :
  SHA256.digest "abc"
  = "ba7816bf8f01cfea414140de5dae2223b00361a396177a9cb410ff61f20015ad".
Proof. vm_compute. reflexivity. Qed.

Example sha256_empty :
  SHA256.digest ""
  = "e3b0c44298fc1c149afbf4c8996fb92427ae41e4649b934ca495991b7852b855".
Proof. vm_compute. reflexivity. Qed.

Example sha256_two_blocks :
  SHA256.digest "abcdbcdecdefdefgefghfghighijhijkijkljklmklmnlmnomnopnopq"
  = "248d6a61d20638b8e5c026930c3e6039a33ce45964ff2167f6ecedd419db06c1".
Proof. vm_compute. reflexivity. Qed.

Example number_to_string_examples :
  number_to_string 0 = "0" /\ number_to_string 2018 = "2018"
  /\ number_to_string (-5) = "-5".
Proof. repeat split. Qed.

Example add_examples :
  JS.add (VNum 0) (VStr "23/01/2018") = VStr "023/01/2018"
  /\ JS.add (VStr "1") (VStr "21/01/2018") = VStr "121/01/2018"
  /\ JS.add (VNum 1) (VNum 2) = VNum 3.
Proof. repeat split. Qed.

Example stringify_examples :
  stringify (amount 6) = Some ("{" ++ quote "amount" ++ ":6}")
  /\ stringify silent_payload = stringify (amount 159531)
  /\ stringify (JArr [JNum 1; JUndefined; JBool true]) = Some "[1,null,true]"
  /\ stringify JUndefined = None
  /\ stringify (JStr (String "010" "a"))
     = Some (String dquote (String backslash ("na" ++ String dquote ""))).
Proof. repeat split. Qed.

Example genesis_hash :
  hash createGenesisBlock
  = "d82f1af7edb68b9b4bf3872669e086e5f14edc8b4920389ba754d7870a3053ba".
Proof. vm_compute. reflexivity. Qed.

Example lucky_block_hash :
  hash lucky_block
  = "00000fdfab5b1bc49fc90f21097e9588ad46f07e3b7f403d3e04664c5cd4d15f".
Proof. vm_compute. reflexivity. Qed.

Example quick_chain_digests :
  digests quick_chain
  = [ "d82f1af7edb68b9b4bf3872669e086e5f14edc8b4920389ba754d7870a3053ba";
      "0000075b55af2e9a19e568fb3bc1ace4f85719425455c686e0e1c7a5d2e3ed2b";
      "00000f4181aabcacde6aeb04937d69394bff31746a0325ac141f5d163e26cde7" ].
Proof. vm_compute. reflexivity. Qed.

(** The candidates of the test do not meet the target as constructed, and
    the last iteration of each search leads to the block of [demo_chain]. *)
Example demo_chain_search :
  map (fun a => meets_target 5 (block_of_args a)) demo_args = [false; false]
  /\ (let before := set_nonce demo_block1 (NonceNum 666376) in
      mineBlock 1 5 (set_hash before (calculateHash before))
      = Returns demo_block1)
  /\ (let before := set_nonce demo_block2 (NonceNum 2239186) in
      mineBlock 1 5 (set_hash before (calculateHash before))
      = Returns demo_block2).
Proof. repeat split; vm_compute; reflexivity. Qed.

Example demo_chain_valid : isChainValid demo_chain = true.
Proof. vm_compute. reflexivity. Qed.

(** At difficulty 1 the searches of the test stop at nonces 1 and 20. *)
Example demo_difficulty_1 :
  match build 20 1 demo_args with
  | Returns c => map nonce (chain c)
  | _ => []
  end
  = [ NonceStr0; NonceNum 1; NonceNum 20 ].
Proof. vm_compute. reflexivity. Qed.

(** ** Properties of mineBlock *)

#[local] Opaque SHA256.digest.

Section Mining.

Implicit Types (this b : Block) (fuel difficulty d : nat).

Lemma mineBlock_unfold fuel d b :
  mineBlock fuel d b
  = if meets_target d b then Returns b
    else match fuel with
         | O => OutOfFuel
         | S fuel' => mineBlock fuel' d (mine_step b)
         end.
Proof.
  unfold meets_target.
  destruct fuel; cbn [mineBlock];
    destruct (String.eqb _ _); reflexivity.
Qed.

Lemma mine_step_fresh b : hash (mine_step b) = calculateHash (mine_step b).
Proof. reflexivity. Qed.

Lemma mineBlock_meets fuel d b b' :
  mineBlock fuel d b = Returns b' -> meets_target d b' = true.
Proof.
  revert b. induction fuel as [|fuel IH]; intros b;
    rewrite mineBlock_unfold; destruct (meets_target d b) eqn:E;
    intros H; try discriminate.
  - injection H as <-. exact E.
  - injection H as <-. exact E.
  - eauto.
Qed.

Lemma mineBlock_never_throws fuel d b : mineBlock fuel d b <> Throws.
Proof.
  revert b. induction fuel as [|fuel IH]; intros b;
    rewrite mineBlock_unfold; destruct (meets_target d b);
    try discriminate. apply IH.
Qed.

(** The search leaves the block untouched, or leaves a digest computed
    from the fields the block ends with. *)
Lemma mineBlock_result fuel d b b' :
  mineBlock fuel d b = Returns b' ->
  (meets_target d b = true /\ b' = b)
  \/ (meets_target d b = false /\ hash b' = calculateHash b').
Proof.
  rewrite mineBlock_unfold. destruct (meets_target d b) eqn:E.
  - intros H. injection H as <-. left. split; reflexivity.
  - intros H. right. split; [reflexivity|].
    destruct fuel as [|fuel]; [discriminate|].
    remember (mine_step b) as b1 eqn:Hb1.
    assert (Hfresh : hash b1 = calculateHash b1)
      by (subst b1; apply mine_step_fresh).
    clear Hb1 E. revert b1 Hfresh H.
    induction fuel as [|fuel IH]; intros b1 Hfresh;
      rewrite mineBlock_unfold; destruct (meets_target d b1);
      intros H; try discriminate.
    + injection H as <-. exact Hfresh.
    + injection H as <-. exact Hfresh.
    + apply (IH (mine_step b1)); [apply mine_step_fresh | exact H].
Qed.

(** Only [nonce] and [hash] are written by the search. *)
Lemma mineBlock_fields fuel d b b' :
  mineBlock fuel d b = Returns b' ->
  index b' = index b /\ timestamp b' = timestamp b
  /\ data b' = data b /\ previousHash b' = previousHash b.
Proof.
  revert b. induction fuel as [|fuel IH]; intros b;
    rewrite mineBlock_unfold; destruct (meets_target d b);
    intros H; try discriminate.
  - injection H as <-. repeat split.
  - injection H as <-. repeat split.
  - apply IH in H. exact H.
Qed.

(** More fuel does not change a result already reached. *)
Lemma mineBlock_more_fuel fuel fuel' d b b' :
  mineBlock fuel d b = Returns b' -> (fuel <= fuel')%nat ->
  mineBlock fuel' d b = Returns b'.
Proof.
  revert fuel' b. induction fuel as [|fuel IH]; intros fuel' b H Hle.
  - rewrite mineBlock_unfold in H. rewrite mineBlock_unfold.
    destruct (meets_target d b); [exact H | discriminate].
  - rewrite mineBlock_unfold in H. rewrite mineBlock_unfold.
    destruct (meets_target d b); [exact H|].
    destruct fuel' as [|fuel']; [lia|].
    apply IH; [exact H | lia].
Qed.

Lemma mineBlock_fuel_irrelevant fuel1 fuel2 d b b1 b2 :
  mineBlock fuel1 d b = Returns b1 -> mineBlock fuel2 d b = Returns b2 ->
  b1 = b2.
Proof.
  intros H1 H2.
  apply (mineBlock_more_fuel _ (Nat.max fuel1 fuel2)) in H1; [|lia].
  apply (mineBlock_more_fuel _ (Nat.max fuel1 fuel2)) in H2; [|lia].
  congruence.
Qed.

Lemma meets_target_0 b : meets_target 0 b = true.
Proof. unfold meets_target. destruct (hash b); reflexivity. Qed.

Lemma target_prefix d s i :
  substring 0 d s = target d -> (i < d)%nat ->
  String.get i s = Some "0"%char.
Proof.
  revert s i. induction d as [|d IH]; intros s i H Hi; [lia|].
  destruct s as [|c s]; cbn in H; [discriminate|].
  injection H as -> H.
  destruct i as [|i]; cbn; [reflexivity|].
  apply IH; [exact H | lia].
Qed.

End Mining.

(** ** Properties of isChainValid *)

Section Validation.

Implicit Types (l : list Block) (c : Blockchain) (i j n : nat).

Lemma isChainValid_loop_true l i n :
  isChainValid_loop l i n = true
  <-> forall j, (i <= j < i + n)%nat -> checks_pass l j.
Proof.
  revert i. induction n as [|n IH]; intros i; cbn [isChainValid_loop].
  - split; [intros _ j Hj; lia | reflexivity].
  - destruct (l !! i) as [cur|] eqn:Hcur.
    2:{ split; [discriminate|]. intros H.
        destruct (H i) as (x & y & Hx & _); [lia | congruence]. }
    destruct (l !! (i - 1)%nat) as [prev|] eqn:Hprev.
    2:{ split; [discriminate|]. intros H.
        destruct (H i) as (x & y & _ & Hy & _); [lia | congruence]. }
    destruct (String.eqb_spec (hash cur) (calculateHash cur)) as [Ha|Ha];
      cbn [negb].
    2:{ split; [discriminate|]. intros H.
        destruct (H i) as (x & y & Hx & _ & Hxa & _); [lia|].
        congruence. }
    destruct (String.eqb_spec (previousHash cur) (hash prev)) as [Hb|Hb];
      cbn [negb].
    2:{ split; [discriminate|]. intros H.
        destruct (H i) as (x & y & Hx & Hy & _ & Hxb); [lia|].
        congruence. }
    rewrite IH. split.
    + intros H j Hj. destruct (decide (j = i)) as [->|Hne].
      * exists cur, prev. repeat split; assumption.
      * apply H. lia.
    + intros H j Hj. apply H. lia.
Qed.

Lemma isChainValid_checks c :
  isChainValid c = true
  <-> forall j, (1 <= j < length (chain c))%nat -> checks_pass (chain c) j.
Proof.
  unfold isChainValid. rewrite isChainValid_loop_true.
  split; intros H j Hj; apply H; lia.
Qed.

Lemma isChainValid_false c j :
  (1 <= j < length (chain c))%nat -> ~ checks_pass (chain c) j ->
  isChainValid c = false.
Proof.
  intros Hj Hno. destruct (isChainValid c) eqn:E; [|reflexivity].
  exfalso. apply Hno. apply isChainValid_checks; assumption.
Qed.

(** The loop reads nothing of block 0 but its [hash]. *)
Lemma isChainValid_loop_genesis g g' rest i n :
  hash g = hash g' -> (1 <= i)%nat ->
  isChainValid_loop (g :: rest) i n = isChainValid_loop (g' :: rest) i n.
Proof.
  intros Hh. revert i. induction n as [|n IH]; intros i Hi;
    cbn [isChainValid_loop]; [reflexivity|].
  destruct i as [|i]; [lia|].
  replace (S i - 1)%nat with i by lia. cbn [lookup list_lookup].
  change (list_lookup i rest) with (rest !! i).
  destruct (rest !! i) as [cur|]; [|reflexivity].
  destruct i as [|i].
  - cbn [lookup list_lookup]. rewrite Hh.
    rewrite (IH 2%nat) by lia. reflexivity.
  - cbn [lookup list_lookup]. rewrite (IH (S (S (S i)))) by lia. reflexivity.
Qed.


End Validation.

(** ** Properties of addBlock *)

Section Append.

Implicit Types (c : Blockchain) (b : Block) (fuel : nat).

Lemma getLatestBlock_length c latest :
  getLatestBlock c = Some latest -> (1 <= length (chain c))%nat.
Proof.
  unfold getLatestBlock. intros H. apply lookup_lt_Some in H. lia.
Qed.

(** The three steps of [addBlock], read off a call that returns. *)
Lemma addBlock_steps fuel c b c' :
  addBlock fuel c b = Returns c' ->
  exists latest mined,
    getLatestBlock c = Some latest
    /\ mineBlock fuel (difficulty c) (set_previousHash b (hash latest))
       = Returns mined
    /\ c' = mkBlockchain (chain c ++ [mined]) (difficulty c).
Proof.
  unfold addBlock. destruct (getLatestBlock c) as [latest|]; [|discriminate].
  destruct (mineBlock fuel (difficulty c) (set_previousHash b (hash latest)))
    as [mined| |] eqn:Hm; try discriminate.
  intros H. injection H as <-. exists latest, mined.
  split; [reflexivity|]. split; [exact Hm | reflexivity].
Qed.

(** No candidate is turned away: on a chain that has a tip, the call
    returns as soon as the search does, whatever the candidate's index. *)
Lemma addBlock_accepts fuel c b latest mined :
  getLatestBlock c = Some latest ->
  mineBlock fuel (difficulty c) (set_previousHash b (hash latest))
  = Returns mined ->
  addBlock fuel c b = Returns (mkBlockchain (chain c ++ [mined]) (difficulty c))
  /\ index mined = index b /\ timestamp mined = timestamp b
  /\ data mined = data b /\ previousHash mined = hash latest.
Proof.
  intros Hl Hm. unfold addBlock. rewrite Hl, Hm. split; [reflexivity|].
  apply mineBlock_fields in Hm. exact Hm.
Qed.

(** Appending keeps a valid chain valid when the search iterates at least
    once, that is when the digest the candidate arrives with does not meet
    the target. *)
Lemma addBlock_preserves_valid fuel c b c' :
  isChainValid c = true -> addBlock fuel c b = Returns c' ->
  meets_target (difficulty c) b = false ->
  isChainValid c' = true.
Proof.
  intros Hv Ha Hno.
  destruct (addBlock_steps _ _ _ _ Ha) as (latest & mined & Hl & Hm & ->).
  pose proof (getLatestBlock_length _ _ Hl) as Hlen.
  apply isChainValid_checks. cbn [chain]. intros j Hj.
  rewrite length_app in Hj. cbn [length] in Hj.
  destruct (decide (j < length (chain c))%nat) as [Hlt|Hge].
  - destruct (proj1 (isChainValid_checks c) Hv j) as (cur & prev & H1 & H2 & H3);
      [lia|].
    exists cur, prev. split; [|split; [|exact H3]].
    + rewrite lookup_app_l by lia. exact H1.
    + rewrite lookup_app_l by lia. exact H2.
  - assert (j = length (chain c)) as -> by lia.
    exists mined, latest. split; [|split; [|split]].
    + rewrite lookup_app_r by lia. rewrite Nat.sub_diag. reflexivity.
    + rewrite lookup_app_l by lia. exact Hl.
    + destruct (mineBlock_result _ _ _ _ Hm) as [[Hyes _]|[_ Hfresh]];
        [|exact Hfresh].
      unfold meets_target in Hyes, Hno. cbn [hash set_previousHash] in Hyes.
      congruence.
    + apply mineBlock_fields in Hm. destruct Hm as (_ & _ & _ & ->).
      reflexivity.
Qed.

Lemma addBlock_fuel_irrelevant fuel1 fuel2 c b c1 c2 :
  addBlock fuel1 c b = Returns c1 -> addBlock fuel2 c b = Returns c2 ->
  c1 = c2.
Proof.
  intros H1 H2.
  destruct (addBlock_steps _ _ _ _ H1) as (l1 & m1 & Hl1 & Hm1 & ->).
  destruct (addBlock_steps _ _ _ _ H2) as (l2 & m2 & Hl2 & Hm2 & ->).
  rewrite Hl1 in Hl2. injection Hl2 as <-.
  rewrite (mineBlock_fuel_irrelevant _ _ _ _ _ _ Hm1 Hm2). reflexivity.
Qed.

Lemma addBlocks_fuel_irrelevant fuel1 fuel2 l c c1 c2 :
  addBlocks fuel1 c l = Returns c1 -> addBlocks fuel2 c l = Returns c2 ->
  c1 = c2.
Proof.
  revert c. induction l as [|a l IH]; intros c; cbn [addBlocks].
  - congruence.
  - destruct (addBlock fuel1 c (block_of_args a)) as [x| |] eqn:E1;
      try discriminate.
    destruct (addBlock fuel2 c (block_of_args a)) as [y| |] eqn:E2;
      try discriminate.
    rewrite (addBlock_fuel_irrelevant _ _ _ _ _ _ E1 E2). apply IH.
Qed.

End Append.

(** ** Evaluations shared by the statements below *)

Lemma quick_chain_built : build 1 5 quick_args = Returns quick_chain.
Proof. vm_compute. reflexivity. Qed.

Lemma quick_chain_valid : isChainValid quick_chain = true.
Proof. vm_compute. reflexivity. Qed.

Lemma lucky_block_meets_target :
  meets_target 5 (set_previousHash lucky_block (hash createGenesisBlock))
  = true.
Proof. vm_compute. reflexivity. Qed.

Lemma addBlock_lucky_block fuel :
  addBlock fuel new_Blockchain lucky_block = Returns lucky_chain.
Proof.
  unfold addBlock.
  change (getLatestBlock new_Blockchain) with (Some createGenesisBlock).
  change (difficulty new_Blockchain) with 5%nat.
  cbv beta iota zeta.
  rewrite mineBlock_unfold, lucky_block_meets_target. reflexivity.
Qed.

Lemma new_Block_hash_without_nonce idx ts v p :
  hash (new_Block idx ts v p)
  = calculateHash (set_nonce (new_Block idx ts v p) NonceUndefined)
  /\ nonce (new_Block idx ts v p) = NonceStr0.
Proof. split; reflexivity. Qed.

(** ** The claims *)

(** C1, evaluated at [new Block(0, "23/01/2018", "Genesis block data", "0")]:
    the constructor stores the string '0' as nonce, but the digest it
    stores was computed while the nonce was still absent, so it differs
    from the digest recomputed from the block's fields; a call
    [mineBlock(0)] returns the block as it is, the stored digest still
    differing from the recomputed one. *)
Theorem constructor_digest_stale :
  nonce createGenesisBlock = NonceStr0
  /\ hash createGenesisBlock
     = "d82f1af7edb68b9b4bf3872669e086e5f14edc8b4920389ba754d7870a3053ba"
  /\ calculateHash createGenesisBlock
     = "ccec360f034c9e09e2799d48648f0f7575bd75ff1ea003f29d8482ce325a4a56"
  /\ hash createGenesisBlock <> calculateHash createGenesisBlock
  /\ mineBlock 0 0 createGenesisBlock = Returns createGenesisBlock.
Proof.
  assert (Hs : hash createGenesisBlock
    = "d82f1af7edb68b9b4bf3872669e086e5f14edc8b4920389ba754d7870a3053ba")
    by (vm_compute; reflexivity).
  assert (Hr : calculateHash createGenesisBlock
    = "ccec360f034c9e09e2799d48648f0f7575bd75ff1ea003f29d8482ce325a4a56")
    by (vm_compute; reflexivity).
  split; [reflexivity|]. split; [exact Hs|]. split; [exact Hr|].
  split; [rewrite Hs, Hr; discriminate|].
  rewrite mineBlock_unfold, meets_target_0. reflexivity.
Qed.

(** C2: isChainValid returns true exactly when every block at an index
    from 1 on has a stored digest equal to the digest recomputed from its
    own fields and a previousHash equal to the stored digest of the block
    just before it; nothing is required of block 0. *)
Theorem isChainValid_iff (c : Blockchain) :
  isChainValid c = true
  <-> forall i currentBlock previousBlock,
        (1 <= i)%nat ->
        chain c !! i = Some currentBlock ->
        chain c !! (i - 1)%nat = Some previousBlock ->
        hash currentBlock = calculateHash currentBlock
        /\ previousHash currentBlock = hash previousBlock.
Proof.
  rewrite isChainValid_checks. split.
  - intros H i cur prev Hi Hc Hp.
    destruct (H i) as (cur' & prev' & Hc' & Hp' & Ha & Hb).
    + split; [exact Hi|]. eapply lookup_lt_Some. exact Hc.
    + rewrite Hc in Hc'. rewrite Hp in Hp'.
      injection Hc' as <-. injection Hp' as <-. split; assumption.
  - intros H j [Hj1 Hj2].
    destruct (lookup_lt_is_Some_2 (chain c) j Hj2) as [cur Hc].
    destruct (lookup_lt_is_Some_2 (chain c) (j - 1)%nat) as [prev Hp];
      [lia|].
    destruct (H j cur prev Hj1 Hc Hp) as [Ha Hb].
    exists cur, prev. repeat split; assumption.
Qed.

(** C3: when mineBlock(d) returns, the first d characters of the stored
    digest are all '0'; and mineBlock(0) returns at once, with any fuel,
    leaving the block (its nonce included) as it was. *)
Theorem mineBlock_postcondition :
  (forall fuel d b b',
      mineBlock fuel d b = Returns b' ->
      forall i, (i < d)%nat -> String.get i (hash b') = Some "0"%char)
  /\ (forall fuel b, mineBlock fuel 0 b = Returns b).
Proof.
  split.
  - intros fuel d b b' H i Hi. apply (target_prefix d); [|exact Hi].
    apply mineBlock_meets in H. unfold meets_target in H.
    apply String.eqb_eq. exact H.
  - intros fuel b. rewrite mineBlock_unfold, meets_target_0. reflexivity.
Qed.

Lemma mineBlock_postcondition_witness :
  mineBlock 1 5 quick_candidate = Returns quick_mined
  /\ String.get 4 (hash quick_mined) = Some "0"%char.
Proof.
  assert (H : mineBlock 1 5 quick_candidate = Returns quick_mined)
    by (vm_compute; reflexivity).
  split; [exact H|].
  apply (proj1 mineBlock_postcondition _ _ _ _ H 4%nat). lia.
Defined.

(** C4, evaluated at [new Blockchain()] and [lucky_block]: addBlock sets
    the candidate's previousHash to the tip's digest and pushes it, but
    the search returns at its first test, so the digest is not recomputed:
    the pushed block keeps the digest of the constructor, which differs
    from the digest of the fields it now has. *)
Theorem addBlock_keeps_constructor_digest (fuel : nat) :
  addBlock fuel new_Blockchain lucky_block = Returns lucky_chain
  /\ chain lucky_chain
     = (chain new_Blockchain
        ++ [set_previousHash lucky_block (hash createGenesisBlock)])%list
  /\ hash <$> last (chain lucky_chain) = Some (hash lucky_block)
  /\ hash lucky_block
     = "00000fdfab5b1bc49fc90f21097e9588ad46f07e3b7f403d3e04664c5cd4d15f"
  /\ calculateHash <$> last (chain lucky_chain)
     = Some "fcff126ce28f3c0a6783bf7523f43fdd4ebe35138ec4686a9138989ffcfabcbd".
Proof.
  split; [apply addBlock_lucky_block|].
  split; [reflexivity|]. split; [reflexivity|].
  split; vm_compute; reflexivity.
Qed.

(** The statement of C5 fails on the chain built from [quick_args]: the
    chain is valid and has three blocks, the payload of block 1 is replaced
    by a different one, no digest is recomputed, and isChainValid still
    returns true, because the two payloads have the same JSON text. *)
Lemma payload_change_undetected :
  build 1 5 quick_args = Returns quick_chain
  /\ isChainValid quick_chain = true
  /\ (2 <= length (chain quick_chain))%nat
  /\ data <$> chain quick_chain !! 1%nat = Some (amount 159531)
  /\ amount 159531 <> silent_payload
  /\ isChainValid (tamper_data quick_chain 1 silent_payload) = true.
Proof.
  split; [exact quick_chain_built|]. split; [exact quick_chain_valid|].
  split; [cbn; lia|]. split; [reflexivity|].
  split; [discriminate|]. vm_compute. reflexivity.
Qed.

(** C5, amended: on a valid chain, replacing the payload of a block at an
    index from 1 on, with no digest recomputed, makes isChainValid return
    false whenever the new payload changes the digest recomputed from the
    block; and the chain of the source's test (genesis, block 1 with
    amount 6, block 2 with amount 2, mined at difficulty 5) is valid and
    stops being so once block 1's payload is set to amount 666. *)
Theorem tamper_data_detected :
  (forall c i b v,
      isChainValid c = true -> (1 <= i)%nat -> chain c !! i = Some b ->
      calculateHash (set_data b v) <> calculateHash b ->
      isChainValid (tamper_data c i v) = false)
  /\ isChainValid demo_chain = true
  /\ isChainValid (tamper_data demo_chain 1 (amount 666)) = false.
Proof.
  split; [|split; vm_compute; reflexivity].
  intros c i b v Hv Hi Hb Hne.
  assert (Hlt : (i < length (chain c))%nat)
    by (eapply lookup_lt_Some; exact Hb).
  assert (Hstored : hash b = calculateHash b).
  { destruct (proj1 (isChainValid_checks c) Hv i)
      as (cur & prev & Hc & _ & Ha & _); [lia|].
    rewrite Hb in Hc. injection Hc as <-. exact Ha. }
  apply (isChainValid_false _ i).
  - cbn [tamper_data chain]. rewrite length_alter. lia.
  - intros (cur & prev & Hc & _ & Ha & _).
    cbn [tamper_data chain] in Hc.
    rewrite list_lookup_alter_eq, Hb in Hc. injection Hc as <-.
    apply Hne. rewrite <- Hstored. symmetry. exact Ha.
Qed.

Lemma tamper_data_detected_witness :
  isChainValid demo_chain = true
  /\ isChainValid (tamper_data demo_chain 1 (amount 666)) = false.
Proof.
  split; [vm_compute; reflexivity|].
  refine (proj1 tamper_data_detected demo_chain 1%nat
            demo_block1
            (amount 666) _ _ _ _).
  - vm_compute. reflexivity.
  - lia.
  - reflexivity.
  - vm_compute. discriminate.
Defined.

(** The statement of C6 fails on the same chain: block 1 receives a
    different payload and its digest is recalculated, block 2 is left as
    it is, and isChainValid returns true. *)
Lemma recalculated_change_undetected :
  build 1 5 quick_args = Returns quick_chain
  /\ isChainValid quick_chain = true
  /\ (3 <= length (chain quick_chain))%nat
  /\ data <$> chain quick_chain !! 1%nat = Some (amount 159531)
  /\ amount 159531 <> silent_payload
  /\ isChainValid (recalculate (tamper_data quick_chain 1 silent_payload) 1)
     = true.
Proof.
  split; [exact quick_chain_built|]. split; [exact quick_chain_valid|].
  split; [cbn; lia|]. split; [reflexivity|].
  split; [discriminate|]. vm_compute. reflexivity.
Qed.

(** C6, amended: on a valid chain of at least three blocks, when block 1
    receives a payload that changes the digest recomputed from it, and its
    stored digest is recalculated while block 2 is left as it is, block 1
    passes its own digest check and isChainValid returns false. *)
Theorem recalculated_tamper_detected (c : Blockchain) (b1 : Block) (v : json) :
  isChainValid c = true -> (3 <= length (chain c))%nat ->
  chain c !! 1%nat = Some b1 ->
  calculateHash (set_data b1 v) <> calculateHash b1 ->
  (exists b1', chain (recalculate (tamper_data c 1 v) 1) !! 1%nat = Some b1'
               /\ hash b1' = calculateHash b1')
  /\ isChainValid (recalculate (tamper_data c 1 v) 1) = false.
Proof.
  intros Hv Hlen Hb1 Hne.
  assert (Hb1' : chain (recalculate (tamper_data c 1 v) 1) !! 1%nat
                 = Some (set_hash (set_data b1 v)
                                  (calculateHash (set_data b1 v)))).
  { cbn [recalculate tamper_data chain].
    rewrite !list_lookup_alter_eq, Hb1. reflexivity. }
  split.
  - eexists. split; [exact Hb1'|]. reflexivity.
  - apply (isChainValid_false _ 2).
    + cbn [recalculate tamper_data chain]. rewrite !length_alter. lia.
    + intros (cur & prev & Hc & Hp & _ & Hlink).
      change (2 - 1)%nat with 1%nat in Hp. rewrite Hb1' in Hp.
      injection Hp as <-.
      cbn [recalculate tamper_data chain] in Hc.
      rewrite !list_lookup_alter_ne in Hc by lia.
      destruct (proj1 (isChainValid_checks c) Hv 2%nat)
        as (cur' & prev' & Hc' & Hp' & _ & Hlink'); [lia|].
      change (2 - 1)%nat with 1%nat in Hp'.
      rewrite Hc in Hc'. injection Hc' as <-.
      rewrite Hb1 in Hp'. injection Hp' as <-.
      destruct (proj1 (isChainValid_checks c) Hv 1%nat)
        as (b & g & Hb & _ & Hstored & _); [lia|].
      rewrite Hb1 in Hb. injection Hb as <-.
      apply Hne. cbn [hash set_hash] in Hlink. congruence.
Qed.

Lemma recalculated_tamper_detected_witness :
  isChainValid demo_chain = true
  /\ isChainValid (recalculate (tamper_data demo_chain 1 (amount 666)) 1)
     = false.
Proof.
  split; [vm_compute; reflexivity|].
  refine (proj2 (recalculated_tamper_detected demo_chain
            demo_block1
            (amount 666) _ _ _ _)).
  - vm_compute. reflexivity.
  - cbn. lia.
  - reflexivity.
  - vm_compute. discriminate.
Defined.

(** C7, evaluated at [new Blockchain()] and [lucky_block]: the fresh chain
    is valid, addBlock returns with any fuel, and the chain it leaves is
    not valid, because the pushed block still carries the digest of the
    constructor. *)
Theorem addBlock_breaks_validity :
  isChainValid new_Blockchain = true
  /\ forall fuel,
       exists c', addBlock fuel new_Blockchain lucky_block = Returns c'
                  /\ isChainValid c' = false.
Proof.
  split; [vm_compute; reflexivity|].
  intros fuel. exists lucky_chain.
  split; [apply addBlock_lucky_block | vm_compute; reflexivity].
Qed.

(** C8: a fresh chain holds exactly one block, the genesis block with
    index 0, the date string "23/01/2018", the payload "Genesis block data"
    and previousHash "0"; its difficulty is 5; isChainValid returns true
    on it. *)
Theorem new_Blockchain_genesis :
  chain new_Blockchain = [createGenesisBlock]
  /\ index createGenesisBlock = VNum 0
  /\ timestamp createGenesisBlock = VStr "23/01/2018"
  /\ data createGenesisBlock = JStr "Genesis block data"
  /\ previousHash createGenesisBlock = "0"
  /\ difficulty new_Blockchain = 5%nat
  /\ isChainValid new_Blockchain = true.
Proof. repeat split. Qed.













(** C10: isChainValid reads nothing of block 0 but its stored digest: two
    chains that differ only in block 0, with the same stored digest there,
    get the same answer; in particular assigning index, timestamp and
    payload of the genesis block never changes the answer. *)
Theorem isChainValid_ignores_genesis :
  (forall g g' rest d d',
      hash g = hash g' ->
      isChainValid (mkBlockchain (g :: rest) d)
      = isChainValid (mkBlockchain (g' :: rest) d'))
  /\ (forall c idx ts v,
        isChainValid (tamper_genesis c idx ts v) = isChainValid c).
Proof.
  assert (Hgen : forall g g' rest d d',
    hash g = hash g' ->
    isChainValid (mkBlockchain (g :: rest) d)
    = isChainValid (mkBlockchain (g' :: rest) d')).
  { intros g g' rest d d' Hh. unfold isChainValid. cbn [chain length].
    apply isChainValid_loop_genesis; [exact Hh | lia]. }
  split; [exact Hgen|].
  intros [l d] idx ts v. unfold tamper_genesis. cbn [chain difficulty].
  destruct l as [|g rest]; [reflexivity|].
  cbn [alter list_alter]. apply Hgen. reflexivity.
Qed.

Lemma isChainValid_ignores_genesis_witness :
  isChainValid
    (mkBlockchain
       (mkBlock (VNum 7) (VStr "01/01/1970") (JStr "rewritten") "0"
                (hash createGenesisBlock) NonceStr0
        :: drop 1 (chain demo_chain)) 5)
  = isChainValid (mkBlockchain (createGenesisBlock :: drop 1 (chain demo_chain)) 5).
Proof.
  apply (proj1 isChainValid_ignores_genesis). reflexivity.
Defined.

(** * Further properties of the code *)

(** ** The search of mineBlock *)

Lemma candidate_S k b : candidate (S k) b = mine_step (candidate k b).
Proof. reflexivity. Qed.

Lemma candidate_shift k b : candidate k (mine_step b) = candidate (S k) b.
Proof.
  unfold candidate. symmetry. apply Nat.iter_succ_r.
Qed.

Lemma mineBlock_Returns_iff (fuel d : nat) (b b' : Block) :
  mineBlock fuel d b = Returns b'
  <-> exists k, (k <= fuel)%nat /\ b' = candidate k b
                /\ meets_target d (candidate k b) = true
                /\ forall j, (j < k)%nat ->
                             meets_target d (candidate j b) = false.
Proof.
  revert b. induction fuel as [|fuel IH]; intros b; rewrite mineBlock_unfold.
  - destruct (meets_target d b) eqn:E; split.
    + intros H. injection H as <-. exists 0%nat.
      split; [lia|]. split; [reflexivity|]. split; [exact E|]. intros j Hj. lia.
    + intros (k & Hk & -> & Hm & Hfirst).
      assert (k = 0)%nat as -> by lia. reflexivity.
    + discriminate.
    + intros (k & Hk & -> & Hm & Hfirst).
      assert (k = 0)%nat as -> by lia. cbn in Hm. congruence.
  - destruct (meets_target d b) eqn:E; split.
    + intros H. injection H as <-. exists 0%nat.
      split; [lia|]. split; [reflexivity|]. split; [exact E|]. intros j Hj. lia.
    + intros (k & Hk & -> & Hm & Hfirst).
      destruct k as [|k]; [reflexivity|].
      specialize (Hfirst 0%nat ltac:(lia)). cbn in Hfirst. congruence.
    + intros H. apply IH in H. destruct H as (k & Hk & -> & Hm & Hfirst).
      exists (S k). rewrite <- candidate_shift.
      split; [lia|]. split; [reflexivity|]. split; [exact Hm|].
      intros [|j] Hj; [exact E|].
      rewrite <- candidate_shift. apply Hfirst. lia.
    + intros (k & Hk & -> & Hm & Hfirst).
      destruct k as [|k]; [cbn in Hm; congruence|].
      apply IH. exists k. rewrite candidate_shift.
      split; [lia|]. split; [reflexivity|]. split; [exact Hm|].
      intros j Hj. rewrite candidate_shift. apply Hfirst. lia.
Qed.

(** mineBlock returns the first block of the sequence b, step b,
    step (step b), ... whose stored digest meets the target, and returns
    within [fuel] iterations exactly when that block comes within the
    first [fuel] steps. *)
Theorem mineBlock_first_hit (fuel d : nat) (b b' : Block) :
  mineBlock fuel d b = Returns b'
  <-> exists k, (k <= fuel)%nat /\ b' = candidate k b
                /\ meets_target d (candidate k b) = true
                /\ forall j, (j < k)%nat ->
                             meets_target d (candidate j b) = false.
Proof. exact (mineBlock_Returns_iff fuel d b b'). Qed.

Lemma mineBlock_OutOfFuel_iff (fuel d : nat) (b : Block) :
  mineBlock fuel d b = OutOfFuel
  <-> forall j, (j <= fuel)%nat -> meets_target d (candidate j b) = false.
Proof.
  revert b. induction fuel as [|fuel IH]; intros b; rewrite mineBlock_unfold;
    destruct (meets_target d b) eqn:E; split; try discriminate.
  - intros H. specialize (H 0%nat ltac:(lia)). cbn in H. congruence.
  - intros _ j Hj. assert (j = 0)%nat as -> by lia. exact E.
  - intros H. specialize (H 0%nat ltac:(lia)). cbn in H. congruence.
  - intros H. specialize (H 0%nat ltac:(lia)). cbn in H. congruence.
  - intros H [|j] Hj; [exact E|].
    rewrite <- candidate_shift. apply (proj1 (IH _) H). lia.
  - intros H. apply IH. intros j Hj. rewrite candidate_shift. apply H. lia.
Qed.

(** For a difficulty whose target string exists, the loop is still
    running after [fuel] iterations exactly when none of the first
    [fuel + 1] blocks of that sequence meets the target. *)
Theorem mineBlock_still_searching (fuel d : nat) (b : Block) :
  target_exists d ->
  (mineBlock fuel d b = OutOfFuel
   <-> forall j, (j <= fuel)%nat -> meets_target d (candidate j b) = false).
Proof. intros _. exact (mineBlock_OutOfFuel_iff fuel d b). Qed.

Lemma mineBlock_still_searching_witness :
  target_exists 5
  /\ mineBlock 0 5 quick_candidate = OutOfFuel
  /\ forall j, (j <= 0)%nat -> meets_target 5 (candidate j quick_candidate) = false.
Proof.
  assert (Ht : target_exists 5) by (unfold target_exists, max_difficulty; cbn [difficulty]; lia).
  assert (H : mineBlock 0 5 quick_candidate = OutOfFuel)
    by (vm_compute; reflexivity).
  split; [exact Ht|]. split; [exact H|].
  exact (proj1 (mineBlock_still_searching 0 5 quick_candidate Ht) H).
Defined.

Lemma target_length d : String.length (target d) = d.
Proof. induction d as [|d IH]; cbn; [reflexivity | rewrite IH; reflexivity]. Qed.

Lemma substring_target_length d s :
  substring 0 d s = target d -> (d <= String.length s)%nat.
Proof.
  revert s. induction d as [|d IH]; intros s H; [lia|].
  destruct s as [|c s]; cbn in H; [discriminate|].
  injection H as _ H. apply IH in H. cbn. lia.
Qed.

Lemma substring_target_le d d' s :
  substring 0 d s = target d -> (d' <= d)%nat ->
  substring 0 d' s = target d'.
Proof.
  revert d' s. induction d as [|d IH]; intros d' s H Hle.
  - assert (d' = 0)%nat as -> by lia. exact H.
  - destruct s as [|c s]; cbn in H; [discriminate|].
    injection H as -> H.
    destruct d' as [|d']; [reflexivity|].
    cbn. f_equal. apply IH; [exact H | lia].
Qed.

Lemma meets_target_le d d' b :
  meets_target d b = true -> (d' <= d)%nat -> meets_target d' b = true.
Proof.
  unfold meets_target. intros H Hle.
  apply String.eqb_eq in H. apply String.eqb_eq.
  exact (substring_target_le _ _ _ H Hle).
Qed.

(** A block that mineBlock(d) returned is returned unchanged, at the first
    test, by any later mineBlock(d') with d' <= d. *)
Theorem mineBlock_again (fuel fuel' d d' : nat) (b b' : Block) :
  mineBlock fuel d b = Returns b' -> (d' <= d)%nat ->
  mineBlock fuel' d' b' = Returns b'.
Proof.
  intros H Hle. apply mineBlock_meets in H.
  rewrite mineBlock_unfold, (meets_target_le _ _ _ H Hle). reflexivity.
Qed.

Lemma mineBlock_again_witness :
  mineBlock 1 5 quick_candidate = Returns quick_mined
  /\ mineBlock 0 3 quick_mined = Returns quick_mined.
Proof.
  assert (H : mineBlock 1 5 quick_candidate = Returns quick_mined)
    by (vm_compute; reflexivity).
  split; [exact H|].
  apply (mineBlock_again 1 0 5 3 quick_candidate quick_mined H). lia.
Defined.

Lemma candidate_nonce k b :
  nonce b = NonceStr0 ->
  nonce (candidate (S k) b) = NonceNum (N.of_nat (S k)).
Proof.
  intros Hb. induction k as [|k IH].
  - cbn. rewrite Hb. reflexivity.
  - rewrite candidate_S. cbn [mine_step nonce set_hash set_nonce].
    rewrite IH. cbn [increment]. f_equal. lia.
Qed.

Lemma candidate_fresh k b :
  hash (candidate (S k) b) = calculateHash (candidate (S k) b).
Proof. rewrite candidate_S. apply mine_step_fresh. Qed.

(** Started on a block as the constructor leaves it (nonce '0'), the
    search either returns it untouched, or returns it with the number of
    iterations made as nonce and a digest computed from its final
    fields. *)
Theorem mineBlock_counts_iterations (fuel d : nat) (b b' : Block) :
  mineBlock fuel d b = Returns b' -> nonce b = NonceStr0 ->
  (meets_target d b = true /\ b' = b)
  \/ (meets_target d b = false
      /\ exists k, (1 <= k <= fuel)%nat
                   /\ b' = candidate k b
                   /\ nonce b' = NonceNum (N.of_nat k)
                   /\ hash b' = calculateHash b').
Proof.
  intros H Hn. apply mineBlock_Returns_iff in H.
  destruct H as (k & Hk & -> & Hm & Hfirst).
  destruct k as [|k].
  - left. split; [exact Hm | reflexivity].
  - right. split; [apply (Hfirst 0%nat); lia|].
    exists (S k). split; [lia|]. split; [reflexivity|].
    split; [apply candidate_nonce; exact Hn | apply candidate_fresh].
Qed.

Lemma mineBlock_counts_iterations_witness :
  mineBlock 1 5 quick_candidate = Returns quick_mined
  /\ nonce quick_candidate = NonceStr0
  /\ ((meets_target 5 quick_candidate = true /\ quick_mined = quick_candidate)
      \/ (meets_target 5 quick_candidate = false
          /\ exists k, (1 <= k <= 1)%nat
                       /\ quick_mined = candidate k quick_candidate
                       /\ nonce quick_mined = NonceNum (N.of_nat k)
                       /\ hash quick_mined = calculateHash quick_mined)).
Proof.
  assert (H : mineBlock 1 5 quick_candidate = Returns quick_mined)
    by (vm_compute; reflexivity).
  split; [exact H|]. split; [reflexivity|].
  exact (mineBlock_counts_iterations 1 5 quick_candidate quick_mined H eq_refl).
Defined.

(** ** Width of the digest *)

#[local] Transparent SHA256.digest.

Lemma digest_length (message : string) :
  String.length (SHA256.digest message) = 64%nat.
Proof. reflexivity. Qed.

#[local] Opaque SHA256.digest.

Lemma calculateHash_64 b : String.length (calculateHash b) = 64%nat.
Proof. apply digest_length. Qed.

Lemma new_Block_hash_64 idx ts v p :
  String.length (hash (new_Block idx ts v p)) = 64%nat.
Proof. apply digest_length. Qed.

(** Every digest has 64 characters: the one [calculateHash] returns and
    the one the constructor stores. *)
Theorem calculateHash_length :
  (forall b, String.length (calculateHash b) = 64%nat)
  /\ (forall idx ts v p, String.length (hash (new_Block idx ts v p)) = 64%nat).
Proof.
  split; intros; [apply calculateHash_64 | apply new_Block_hash_64].
Qed.

Lemma meets_target_length d b :
  meets_target d b = true -> (d <= String.length (hash b))%nat.
Proof.
  unfold meets_target. intros H. apply String.eqb_eq in H.
  exact (substring_target_length _ _ H).
Qed.

Lemma mineBlock_too_difficult (fuel d : nat) (b : Block) :
  (64 < d)%nat -> (String.length (hash b) <= 64)%nat ->
  mineBlock fuel d b = OutOfFuel.
Proof.
  intros Hd Hb. apply mineBlock_OutOfFuel_iff. intros j _.
  destruct (meets_target d (candidate j b)) eqn:E; [|reflexivity].
  apply meets_target_length in E. destruct j as [|j].
  - cbn in E. lia.
  - rewrite candidate_fresh, calculateHash_64 in E. lia.
Qed.

(** With a difficulty above 64 whose target string exists, the search
    cannot end: on a block whose stored digest has at most 64 characters,
    mineBlock is still running after any number of iterations. *)
Theorem mineBlock_never_returns (fuel d : nat) (b : Block) :
  (64 < d)%nat -> target_exists d -> (String.length (hash b) <= 64)%nat ->
  mineBlock fuel d b = OutOfFuel.
Proof. intros Hd _. exact (mineBlock_too_difficult fuel d b Hd). Qed.

Lemma mineBlock_never_returns_witness :
  (64 < 65)%nat /\ target_exists 65
  /\ (String.length (hash lucky_block) <= 64)%nat
  /\ mineBlock 1000 65 lucky_block = OutOfFuel.
Proof.
  assert (Hl : (String.length (hash lucky_block) <= 64)%nat).
  { unfold lucky_block. rewrite new_Block_hash_64. lia. }
  assert (Ht : target_exists 65) by (unfold target_exists, max_difficulty; cbn [difficulty]; lia).
  split; [lia|]. split; [exact Ht|]. split; [exact Hl|].
  apply mineBlock_never_returns; [lia | exact Ht | exact Hl].
Defined.

(** [c.addBlock(new Block(...))] never completes on a non-empty chain
    whose difficulty is above 64 and has a target string: the candidate's
    digest has 64 characters, and so has every digest the search
    computes. *)
Theorem addBlock_never_completes (fuel : nat) (c : Blockchain)
    (idx ts : value) (v : json) (p : option string) :
  chain c <> [] -> (64 < difficulty c)%nat -> target_exists (difficulty c) ->
  addBlock fuel c (new_Block idx ts v p) = OutOfFuel.
Proof.
  intros Hne Hd _. unfold addBlock.
  destruct (getLatestBlock c) as [latest|] eqn:Hl.
  - cbv zeta. rewrite mineBlock_too_difficult; [reflexivity | exact Hd |].
    change (hash (set_previousHash (new_Block idx ts v p) (hash latest)))
      with (hash (new_Block idx ts v p)).
    rewrite new_Block_hash_64. lia.
  - exfalso. unfold getLatestBlock in Hl.
    destruct (chain c) as [|g rest]; [congruence|].
    apply lookup_ge_None in Hl. cbn [length] in Hl. lia.
Qed.

Lemma addBlock_never_completes_witness :
  chain (mkBlockchain [createGenesisBlock] 65) <> []
  /\ (64 < difficulty (mkBlockchain [createGenesisBlock] 65))%nat
  /\ target_exists (difficulty (mkBlockchain [createGenesisBlock] 65))
  /\ addBlock 1000 (mkBlockchain [createGenesisBlock] 65)
       (new_Block (VStr "1") (VStr "21/01/2018") (amount 6) None)
     = OutOfFuel.
Proof.
  assert (Ht : target_exists (difficulty (mkBlockchain [createGenesisBlock] 65)))
    by (unfold target_exists, max_difficulty; cbn [difficulty]; lia).
  split; [discriminate|]. split; [cbn; lia|]. split; [exact Ht|].
  apply addBlock_never_completes; [discriminate | cbn; lia | exact Ht].
Defined.

(** ** addBlock and construction sequences *)

Lemma getLatestBlock_None c : getLatestBlock c = None <-> chain c = [].
Proof.
  unfold getLatestBlock. split.
  - intros H. destruct (chain c) as [|g rest]; [reflexivity|].
    apply lookup_ge_None in H. cbn [length] in H. lia.
  - intros ->. reflexivity.
Qed.

Lemma addBlock_Returns_inv (fuel : nat) (c c' : Blockchain) (b : Block) :
  addBlock fuel c b = Returns c' ->
  length (chain c') = S (length (chain c))
  /\ (forall i, (i < length (chain c))%nat -> chain c' !! i = chain c !! i)
  /\ difficulty c' = difficulty c
  /\ exists latest mined,
       getLatestBlock c = Some latest /\ getLatestBlock c' = Some mined
       /\ index mined = index b /\ timestamp mined = timestamp b
       /\ data mined = data b /\ previousHash mined = hash latest
       /\ meets_target (difficulty c) mined = true.
Proof.
  intros H.
  destruct (addBlock_steps _ _ _ _ H) as (latest & mined & Hl & Hm & ->).
  cbn [chain difficulty]. split; [rewrite length_app; cbn; lia|].
  split; [intros i Hi; apply lookup_app_l; exact Hi|].
  split; [reflexivity|].
  exists latest, mined. split; [exact Hl|]. split.
  - unfold getLatestBlock. cbn [chain]. rewrite length_app. cbn [length].
    rewrite lookup_app_r by lia.
    replace (length (chain c) + 1 - 1 - length (chain c))%nat with 0%nat by lia.
    reflexivity.
  - pose proof (mineBlock_meets _ _ _ _ Hm) as Hmeets.
    apply mineBlock_fields in Hm. destruct Hm as (Hi & Ht & Hd & Hp).
    repeat split; assumption.
Qed.

(** A call [c.addBlock(new Block(idx, ts, v, p))], whose candidate is a
    new object, that returns has added exactly one block at the end and
    changed nothing else: the blocks already there and the difficulty are
    as before, and getLatestBlock now gives a block with the index,
    timestamp and payload given to the constructor, the former tip's
    digest as previousHash, and a stored digest that meets the target. *)
Theorem addBlock_appends (fuel : nat) (c c' : Blockchain)
    (idx ts : value) (v : json) (p : option string) :
  addBlock fuel c (new_Block idx ts v p) = Returns c' ->
  length (chain c') = S (length (chain c))
  /\ (forall i, (i < length (chain c))%nat -> chain c' !! i = chain c !! i)
  /\ difficulty c' = difficulty c
  /\ exists latest mined,
       getLatestBlock c = Some latest /\ getLatestBlock c' = Some mined
       /\ index mined = idx /\ timestamp mined = ts
       /\ data mined = v /\ previousHash mined = hash latest
       /\ meets_target (difficulty c) mined = true.
Proof. exact (addBlock_Returns_inv fuel c c' (new_Block idx ts v p)). Qed.

Lemma addBlock_appends_witness :
  addBlock 0 new_Blockchain lucky_block = Returns lucky_chain
  /\ length (chain lucky_chain) = S (length (chain new_Blockchain)).
Proof.
  split; [apply addBlock_lucky_block|].
  exact (proj1 (addBlock_appends 0 new_Blockchain lucky_chain
                  (VStr "1") (VStr "21/01/2018") (amount 212375) None
                  (addBlock_lucky_block 0))).
Defined.

Lemma addBlocks_shape fuel l c0 c :
  addBlocks fuel c0 l = Returns c ->
  chain c0 <> [] ->
  difficulty c = difficulty c0
  /\ exists added,
       chain c = (chain c0 ++ added)%list
       /\ map index added = map arg_index l
       /\ map timestamp added = map arg_timestamp l
       /\ map data added = map arg_data l.
Proof.
  revert c0. induction l as [|a l IH]; intros c0; cbn [addBlocks].
  - intros H _. injection H as <-. split; [reflexivity|].
    exists []. rewrite app_nil_r. repeat split.
  - destruct (addBlock fuel c0 (block_of_args a)) as [c1| |] eqn:Ha;
      try discriminate.
    intros H Hne.
    destruct (addBlock_steps _ _ _ _ Ha) as (latest & mined & Hl & Hm & ->).
    apply mineBlock_fields in Hm. destruct Hm as (Hi & Ht & Hd & _).
    destruct (IH _ H) as (Hdiff & added & Hc & Hai & Hat & Had).
    { cbn [chain]. intros E. apply app_eq_nil in E. destruct E; discriminate. }
    split; [exact Hdiff|].
    exists (mined :: added). cbn [chain] in Hc.
    rewrite Hc, <- app_assoc. cbn [map app].
    rewrite Hai, Hat, Had, Hi, Ht, Hd. repeat split.
Qed.

(** A construction sequence that returns leaves the genesis block first,
    then one block per call in the order of the calls, each with the
    index, timestamp and payload it was constructed with (the indices are
    stored as given), and the difficulty of the chain unchanged. *)
Theorem build_shape (fuel d : nat) (l : list block_args) (c : Blockchain) :
  build fuel d l = Returns c ->
  length (chain c) = S (length l)
  /\ chain c !! 0%nat = Some createGenesisBlock
  /\ map index (chain c) = VNum 0 :: map arg_index l
  /\ map timestamp (chain c) = VStr "23/01/2018" :: map arg_timestamp l
  /\ map data (chain c) = JStr "Genesis block data" :: map arg_data l
  /\ difficulty c = d.
Proof.
  unfold build. intros H.
  destruct (addBlocks_shape _ _ _ _ H) as (Hd & added & Hc & Hi & Ht & Hv);
    [discriminate|].
  cbn [chain difficulty new_Blockchain] in Hc, Hd.
  rewrite Hc. cbn [app map length lookup list_lookup].
  rewrite Hi, Ht, Hv.
  assert (Hlen : length added = length l).
  { rewrite <- (length_map index added), Hi, length_map. reflexivity. }
  rewrite Hlen. repeat split. exact Hd.
Qed.

Lemma build_shape_witness :
  build 1 5 quick_args = Returns quick_chain
  /\ map index (chain quick_chain) = VNum 0 :: map arg_index quick_args.
Proof.
  split; [exact quick_chain_built|].
  exact (proj1 (proj2 (proj2 (build_shape 1 5 quick_args quick_chain
                                 quick_chain_built)))).
Defined.

Lemma addBlocks_linked fuel l c0 c :
  addBlocks fuel c0 l = Returns c ->
  (forall i cur prev, (1 <= i)%nat ->
     chain c0 !! i = Some cur -> chain c0 !! (i - 1)%nat = Some prev ->
     previousHash cur = hash prev) ->
  forall i cur prev, (1 <= i)%nat ->
    chain c !! i = Some cur -> chain c !! (i - 1)%nat = Some prev ->
    previousHash cur = hash prev.
Proof.
  revert c0. induction l as [|a l IH]; intros c0; cbn [addBlocks].
  - intros H. injection H as <-. auto.
  - destruct (addBlock fuel c0 (block_of_args a)) as [c1| |] eqn:Ha;
      try discriminate.
    intros H Hlinked. apply (IH _ H). clear IH H.
    destruct (addBlock_Returns_inv _ _ _ _ Ha)
      as (Hlen & Hold & _ & latest & mined & Hl & Hl1 & _ & _ & _ & Hp & _).
    pose proof (getLatestBlock_length _ _ Hl) as Hpos.
    intros i cur prev Hi Hc Hq.
    destruct (decide (i < length (chain c0))%nat) as [Hlt|Hge].
    + rewrite Hold in Hc by lia. rewrite Hold in Hq by lia. eauto.
    + assert (i = length (chain c0)) as -> by
        (apply lookup_lt_Some in Hc; lia).
      unfold getLatestBlock in Hl1. rewrite Hlen in Hl1.
      replace (S (length (chain c0)) - 1)%nat with (length (chain c0))
        in Hl1 by lia.
      rewrite Hl1 in Hc. injection Hc as <-.
      rewrite Hold in Hq by lia. unfold getLatestBlock in Hl.
      rewrite Hl in Hq. injection Hq as <-. exact Hp.
Qed.

(** In every chain a construction sequence leaves, each block from index 1
    on carries the stored digest of the block before it as previousHash,
    whatever previousHash it was constructed with: the linkage check of
    isChainValid passes at every index. *)
Theorem build_linked (fuel d : nat) (l : list block_args) (c : Blockchain) :
  build fuel d l = Returns c ->
  forall i cur prev, (1 <= i)%nat ->
    chain c !! i = Some cur -> chain c !! (i - 1)%nat = Some prev ->
    previousHash cur = hash prev.
Proof.
  unfold build. intros H. apply (addBlocks_linked _ _ _ _ H).
  cbn [chain new_Blockchain]. intros i cur prev Hi Hc _.
  apply lookup_lt_Some in Hc. cbn [length] in Hc. lia.
Qed.

Lemma build_linked_witness :
  build 1 5 quick_args = Returns quick_chain
  /\ forall cur prev,
       chain quick_chain !! 1%nat = Some cur ->
       chain quick_chain !! 0%nat = Some prev ->
       previousHash cur = hash prev.
Proof.
  split; [exact quick_chain_built|]. intros cur prev.
  apply (build_linked 1 5 quick_args quick_chain quick_chain_built 1%nat). lia.
Defined.

Lemma addBlocks_valid fuel l c0 c :
  addBlocks fuel c0 l = Returns c ->
  isChainValid c0 = true ->
  Forall (fun a => meets_target (difficulty c0) (block_of_args a) = false) l ->
  isChainValid c = true.
Proof.
  revert c0. induction l as [|a l IH]; intros c0; cbn [addBlocks].
  - intros H Hv _. injection H as <-. exact Hv.
  - destruct (addBlock fuel c0 (block_of_args a)) as [c1| |] eqn:Ha;
      try discriminate.
    intros H Hv Hall. apply Forall_cons in Hall. destruct Hall as [Ha0 Hall].
    apply (IH _ H).
    + exact (addBlock_preserves_valid _ _ _ _ Hv Ha Ha0).
    + destruct (addBlock_Returns_inv _ _ _ _ Ha) as (_ & _ & -> & _). exact Hall.
Qed.

(** A construction sequence in which no block meets the target with the
    digest its constructor stored leaves a chain on which isChainValid
    returns true. *)
Theorem build_valid (fuel d : nat) (l : list block_args) (c : Blockchain) :
  build fuel d l = Returns c ->
  Forall (fun a => meets_target d (block_of_args a) = false) l ->
  isChainValid c = true.
Proof.
  unfold build. intros H Hall. apply (addBlocks_valid _ _ _ _ H).
  - reflexivity.
  - exact Hall.
Qed.

Lemma build_valid_witness :
  build 1 5 quick_args = Returns quick_chain
  /\ Forall (fun a => meets_target 5 (block_of_args a) = false) quick_args
  /\ isChainValid quick_chain = true.
Proof.
  assert (Hall : Forall (fun a => meets_target 5 (block_of_args a) = false)
                        quick_args).
  { repeat constructor; vm_compute; reflexivity. }
  split; [exact quick_chain_built|]. split; [exact Hall|].
  exact (build_valid 1 5 quick_args quick_chain quick_chain_built Hall).
Defined.

(** ** What isChainValid detects and what it does not *)

(** On a valid chain, assigning a different previousHash to a block at an
    index from 1 on makes isChainValid return false. *)
Theorem tamper_previousHash_detected (c : Blockchain) (i : nat) (b : Block)
    (p : string) :
  isChainValid c = true -> (1 <= i)%nat -> chain c !! i = Some b ->
  p <> previousHash b ->
  isChainValid (tamper_previousHash c i p) = false.
Proof.
  intros Hv Hi Hb Hne.
  assert (Hlt : (i < length (chain c))%nat)
    by (eapply lookup_lt_Some; exact Hb).
  destruct (proj1 (isChainValid_checks c) Hv i)
    as (cur & prev & Hc & Hp & _ & Hlink); [lia|].
  rewrite Hb in Hc. injection Hc as <-.
  apply (isChainValid_false _ i).
  - cbn [tamper_previousHash chain]. rewrite length_alter. lia.
  - intros (cur' & prev' & Hc' & Hp' & _ & Hlink').
    cbn [tamper_previousHash chain] in Hc', Hp'.
    rewrite list_lookup_alter_eq, Hb in Hc'. injection Hc' as <-.
    rewrite list_lookup_alter_ne, Hp in Hp' by lia. injection Hp' as <-.
    apply Hne. cbn [previousHash set_previousHash] in Hlink'. congruence.
Qed.

Lemma tamper_previousHash_detected_witness :
  isChainValid demo_chain = true
  /\ isChainValid (tamper_previousHash demo_chain 2 "0") = false.
Proof.
  assert (Hv : isChainValid demo_chain = true) by (vm_compute; reflexivity).
  split; [exact Hv|].
  apply (tamper_previousHash_detected demo_chain 2 demo_block2 "0" Hv);
    [lia | reflexivity | discriminate].
Defined.

(** On a valid chain of at least two blocks, assigning a different stored
    digest to any block, the genesis block included, makes isChainValid
    return false. *)
Theorem tamper_hash_detected (c : Blockchain) (i : nat) (b : Block)
    (h : string) :
  isChainValid c = true -> (2 <= length (chain c))%nat ->
  chain c !! i = Some b -> h <> hash b ->
  isChainValid (tamper_hash c i h) = false.
Proof.
  intros Hv Hlen Hb Hne.
  assert (Hlt : (i < length (chain c))%nat)
    by (eapply lookup_lt_Some; exact Hb).
  destruct i as [|i].
  - destruct (proj1 (isChainValid_checks c) Hv 1%nat)
      as (cur & prev & Hc & Hp & _ & Hlink); [lia|].
    change (1 - 1)%nat with 0%nat in Hp. rewrite Hb in Hp. injection Hp as <-.
    apply (isChainValid_false _ 1).
    + cbn [tamper_hash chain]. rewrite length_alter. lia.
    + intros (cur' & prev' & Hc' & Hp' & _ & Hlink').
      cbn [tamper_hash chain] in Hc', Hp'.
      change (1 - 1)%nat with 0%nat in Hp'.
      rewrite list_lookup_alter_ne, Hc in Hc' by lia. injection Hc' as <-.
      rewrite list_lookup_alter_eq, Hb in Hp'. injection Hp' as <-.
      apply Hne. cbn [hash set_hash] in Hlink'. congruence.
  - destruct (proj1 (isChainValid_checks c) Hv (S i))
      as (cur & prev & Hc & _ & Hself & _); [lia|].
    rewrite Hb in Hc. injection Hc as <-.
    apply (isChainValid_false _ (S i)).
    + cbn [tamper_hash chain]. rewrite length_alter. lia.
    + intros (cur' & prev' & Hc' & _ & Hself' & _).
      cbn [tamper_hash chain] in Hc'.
      rewrite list_lookup_alter_eq, Hb in Hc'. injection Hc' as <-.
      apply Hne. rewrite Hself. exact Hself'.
Qed.

Lemma tamper_hash_detected_witness :
  isChainValid demo_chain = true /\ (2 <= length (chain demo_chain))%nat
  /\ isChainValid (tamper_hash demo_chain 0 "0") = false.
Proof.
  assert (Hv : isChainValid demo_chain = true) by (vm_compute; reflexivity).
  split; [exact Hv|]. split; [cbn; lia|].
  apply (tamper_hash_detected demo_chain 0 createGenesisBlock "0" Hv);
    [cbn; lia | reflexivity | vm_compute; discriminate].
Defined.

(** Removing blocks from the end of a valid chain leaves a valid chain:
    isChainValid does not detect truncation. *)
Theorem truncate_valid (c : Blockchain) (n : nat) :
  isChainValid c = true -> isChainValid (truncate c n) = true.
Proof.
  intros Hv. apply isChainValid_checks. cbn [truncate chain].
  intros j Hj. rewrite length_take in Hj.
  destruct (proj1 (isChainValid_checks c) Hv j)
    as (cur & prev & Hc & Hp & Hrest); [lia|].
  exists cur, prev. rewrite !lookup_take_lt by lia.
  split; [exact Hc|]. split; [exact Hp | exact Hrest].
Qed.

Lemma truncate_valid_witness :
  isChainValid demo_chain = true
  /\ isChainValid (truncate demo_chain 2) = true.
Proof.
  assert (Hv : isChainValid demo_chain = true) by (vm_compute; reflexivity).
  split; [exact Hv | exact (truncate_valid demo_chain 2 Hv)].
Defined.

Lemma triple_eq {A B C : Type} (a a' : A) (b b' : B) (c c' : C) :
  (a, b, c) = (a', b', c') -> a = a' /\ b = b' /\ c = c'.
Proof.
  intros H. split; [|split].
  - exact (f_equal (fun t => fst (fst t)) H).
  - exact (f_equal (fun t => snd (fst t)) H).
  - exact (f_equal snd H).
Qed.

Lemma isChainValid_loop_reads (l l' : list Block) (i n : nat) :
  (fun b => (hash b, previousHash b, calculateHash b)) <$> l
  = (fun b => (hash b, previousHash b, calculateHash b)) <$> l' ->
  isChainValid_loop l i n = isChainValid_loop l' i n.
Proof.
  intros E.
  assert (Hat : forall j,
    (fun b => (hash b, previousHash b, calculateHash b)) <$> (l !! j)
    = (fun b => (hash b, previousHash b, calculateHash b)) <$> (l' !! j)).
  { intros j. rewrite <- !list_lookup_fmap, E. reflexivity. }
  revert i. induction n as [|n IH]; intros i; cbn [isChainValid_loop];
    [reflexivity|].
  pose proof (Hat i) as Hi. pose proof (Hat (i - 1)%nat) as Hp.
  destruct (l !! i) as [cur|], (l' !! i) as [cur'|];
    [ | discriminate Hi | discriminate Hi | reflexivity ].
  destruct (l !! (i - 1)%nat) as [prev|], (l' !! (i - 1)%nat) as [prev'|];
    [ | discriminate Hp | discriminate Hp | reflexivity ].
  apply (f_equal (default (hash cur, previousHash cur, calculateHash cur))) in Hi.
  apply (f_equal (default (hash prev, previousHash prev, calculateHash prev)))
    in Hp.
  change ((hash cur, previousHash cur, calculateHash cur)
          = (hash cur', previousHash cur', calculateHash cur')) in Hi.
  change ((hash prev, previousHash prev, calculateHash prev)
          = (hash prev', previousHash prev', calculateHash prev')) in Hp.
  apply triple_eq in Hi. apply triple_eq in Hp.
  destruct Hi as (Hh & Hq & Hc). destruct Hp as (Hh' & _ & _).
  rewrite Hh, Hq, Hc, Hh', IH. reflexivity.
Qed.

Lemma same_reads_same_answer (c c' : Blockchain) :
  (fun b => (hash b, previousHash b, calculateHash b)) <$> chain c
  = (fun b => (hash b, previousHash b, calculateHash b)) <$> chain c' ->
  isChainValid c = isChainValid c'.
Proof.
  intros E. unfold isChainValid.
  assert (Hlen : length (chain c) = length (chain c')).
  { rewrite <- (length_fmap
      (fun b => (hash b, previousHash b, calculateHash b)) (chain c)), E.
    apply length_fmap. }
  rewrite Hlen. apply isChainValid_loop_reads. exact E.
Qed.

(** isChainValid reads a block only through its stored digest, its
    previousHash and the digest recomputed from it: two chains with the
    same number of blocks that agree on these three values at every index
    get the same answer. *)
Theorem isChainValid_reads (c c' : Blockchain) :
  (fun b => (hash b, previousHash b, calculateHash b)) <$> chain c
  = (fun b => (hash b, previousHash b, calculateHash b)) <$> chain c' ->
  isChainValid c = isChainValid c'.
Proof. exact (same_reads_same_answer c c'). Qed.

Lemma isChainValid_reads_witness :
  isChainValid (tamper_data quick_chain 1 silent_payload)
  = isChainValid quick_chain.
Proof.
  apply isChainValid_reads. vm_compute. reflexivity.
Defined.

Lemma fmap_alter_same {A B : Type} (view : A -> B) (f : A -> A)
    (l : list A) (i : nat) :
  (forall x, l !! i = Some x -> view (f x) = view x) ->
  view <$> alter f i l = view <$> l.
Proof.
  intros H. apply list_eq. intros j. rewrite !list_lookup_fmap.
  destruct (decide (i = j)) as [<-|Hne].
  - rewrite list_lookup_alter_eq. destruct (l !! i) as [x|] eqn:E;
      [|reflexivity].
    change (Some (view (f x)) = Some (view x)). f_equal. apply H.
    reflexivity.
  - rewrite list_lookup_alter_ne by exact Hne. reflexivity.
Qed.

Lemma tamper_data_same_digest (c : Blockchain) (i : nat) (v : json) :
  (forall b, chain c !! i = Some b ->
             calculateHash (set_data b v) = calculateHash b) ->
  isChainValid (tamper_data c i v) = isChainValid c.
Proof.
  intros H. apply same_reads_same_answer. cbn [tamper_data chain].
  apply fmap_alter_same. intros b Hb.
  cbn [hash previousHash set_data]. rewrite (H b Hb). reflexivity.
Qed.

(** A new payload that leaves the recomputed digest of the block as it
    was is not detected: isChainValid answers as before the change. *)
Theorem tamper_data_undetected (c : Blockchain) (i : nat) (v : json) :
  (forall b, chain c !! i = Some b ->
             calculateHash (set_data b v) = calculateHash b) ->
  isChainValid (tamper_data c i v) = isChainValid c.
Proof. exact (tamper_data_same_digest c i v). Qed.

Lemma tamper_data_undetected_witness :
  (forall b, chain quick_chain !! 1%nat = Some b ->
             calculateHash (set_data b silent_payload) = calculateHash b)
  /\ isChainValid (tamper_data quick_chain 1 silent_payload)
     = isChainValid quick_chain.
Proof.
  assert (H : forall b, chain quick_chain !! 1%nat = Some b ->
    calculateHash (set_data b silent_payload) = calculateHash b).
  { intros b Hb. injection Hb as <-. vm_compute. reflexivity. }
  split; [exact H | exact (tamper_data_undetected quick_chain 1 silent_payload H)].
Defined.

(** ** What the digest does not distinguish *)

Lemma string_app_assoc (a b c : string) : (a ++ b) ++ c = a ++ (b ++ c).
Proof.
  induction a as [|x a IH]; cbn [String.append]; [reflexivity|].
  rewrite IH. reflexivity.
Qed.

Lemma stringify_omits_undefined (l1 l2 : list (string * json)) (k : string) :
  stringify (JObj (l1 ++ (k, JUndefined) :: l2)) = stringify (JObj (l1 ++ l2)).
Proof.
  cbn [stringify]. do 4 f_equal.
  induction l1 as [|[k' x] l1 IH]; [reflexivity|].
  cbn [app]. rewrite IH. reflexivity.
Qed.

Lemma stringify_undefined_element (l1 l2 : list json) :
  stringify (JArr (l1 ++ JUndefined :: l2))
  = stringify (JArr (l1 ++ JNull :: l2)).
Proof.
  cbn [stringify]. do 4 f_equal.
  induction l1 as [|x l1 IH]; [reflexivity|].
  cbn [app]. rewrite IH. reflexivity.
Qed.

Lemma calculateHash_same_text (b : Block) (v : json) :
  stringify v = stringify (data b) ->
  calculateHash (set_data b v) = calculateHash b.
Proof.
  intros H. unfold calculateHash, hash_input.
  cbn [index timestamp data previousHash nonce set_data]. rewrite H.
  reflexivity.
Qed.


(** Adding to an object payload a property whose value is undefined, at
    any position, changes neither the digest recomputed from the block
    nor the answer of isChainValid. *)
Theorem undefined_property_undetected (c : Blockchain) (i : nat)
    (l1 l2 : list (string * json)) (k : string) :
  (forall b, chain c !! i = Some b -> data b = JObj (l1 ++ l2)) ->
  (forall b, chain c !! i = Some b ->
     calculateHash (set_data b (JObj (l1 ++ (k, JUndefined) :: l2)))
     = calculateHash b)
  /\ isChainValid (tamper_data c i (JObj (l1 ++ (k, JUndefined) :: l2)))
     = isChainValid c.
Proof.
  intros Hd.
  assert (H : forall b, chain c !! i = Some b ->
    calculateHash (set_data b (JObj (l1 ++ (k, JUndefined) :: l2)))
    = calculateHash b).
  { intros b Hb. apply calculateHash_same_text.
    rewrite (Hd b Hb). apply stringify_omits_undefined. }
  split; [exact H | exact (tamper_data_same_digest _ _ _ H)].
Qed.

Lemma undefined_property_undetected_witness :
  (forall b, chain quick_chain !! 1%nat = Some b ->
             data b = JObj ([("amount", JNum 159531)] ++ []))
  /\ isChainValid (tamper_data quick_chain 1 silent_payload)
     = isChainValid quick_chain.
Proof.
  assert (Hd : forall b, chain quick_chain !! 1%nat = Some b ->
                         data b = JObj ([("amount", JNum 159531)] ++ [])).
  { intros b Hb. injection Hb as <-. reflexivity. }
  split; [exact Hd|].
  exact (proj2 (undefined_property_undetected quick_chain 1
                  [("amount", JNum 159531)] [] "memo" Hd)).
Defined.

(** The digest is computed from the fields written one after the other
    with nothing between them: characters moved from the end of a string
    index to the start of a string timestamp, or from the end of the
    timestamp to the start of previousHash, give the same digest, and so
    does an integer index of absolute value below 2^53 in place of the
    string of its decimal digits. *)
Theorem calculateHash_field_boundaries (a s t p h : string) (v : json)
    (n : JS.nonce) (k : Z) :
  calculateHash (mkBlock (VStr (a ++ s)) (VStr t) v p h n)
  = calculateHash (mkBlock (VStr a) (VStr (s ++ t)) v p h n)
  /\ calculateHash (mkBlock (VStr a) (VStr (t ++ s)) v p h n)
     = calculateHash (mkBlock (VStr a) (VStr t) v (s ++ p) h n)
  /\ ((- 2 ^ 53 < k < 2 ^ 53)%Z ->
      calculateHash (mkBlock (VNum k) (VStr t) v p h n)
      = calculateHash (mkBlock (VStr (number_to_string k)) (VStr t) v p h n)).
Proof.
  unfold calculateHash, hash_input.
  cbn [index timestamp data previousHash nonce JS.add to_string].
  split; [|split].
  - rewrite !string_app_assoc. reflexivity.
  - rewrite !string_app_assoc. reflexivity.
  - intros _. reflexivity.
Qed.

Lemma calculateHash_field_boundaries_witness :
  (- 2 ^ 53 < 1 < 2 ^ 53)%Z
  /\ calculateHash (mkBlock (VNum 1) (VStr "21/01/2018") (amount 6) "" ""
                            NonceStr0)
     = calculateHash (mkBlock (VStr "1") (VStr "21/01/2018") (amount 6) "" ""
                              NonceStr0).
Proof.
  split; [lia|].
  exact (proj2 (proj2 (calculateHash_field_boundaries "" "" "21/01/2018" "" ""
                         (amount 6) NonceStr0 1)) ltac:(lia)).
Defined.

(** ** The version without proof of work *)

Lemma Plain_getLatestBlock_Some (c : Plain.Blockchain) :
  Plain.chain c <> [] -> exists latest, Plain.getLatestBlock c = Some latest.
Proof.
  intros Hne. unfold Plain.getLatestBlock.
  destruct (Plain.chain c) as [|g rest] eqn:E; [congruence|].
  apply lookup_lt_is_Some_2. cbn [length]. lia.
Qed.

Lemma Plain_addBlock_consistent (c c' : Plain.Blockchain) (b : Plain.Block) :
  Plain.addBlock c b = Some c' ->
  Plain.consistent (Plain.chain c) ->
  Plain.consistent (Plain.chain c')
  /\ length (Plain.chain c') = S (length (Plain.chain c)).
Proof.
  unfold Plain.addBlock.
  destruct (Plain.getLatestBlock c) as [latest|] eqn:Hl; [|discriminate].
  cbv zeta. intros H Hc. injection H as <-. cbn [Plain.chain].
  unfold Plain.getLatestBlock in Hl.
  pose proof (lookup_lt_Some _ _ _ Hl) as Hpos.
  split; [|rewrite length_app; cbn [length]; lia].
  intros i cur prev Hi Hcur Hprev.
  destruct (decide (i < length (Plain.chain c))%nat) as [Hlt|Hge].
  - rewrite lookup_app_l in Hcur by lia. rewrite lookup_app_l in Hprev by lia.
    exact (Hc i cur prev Hi Hcur Hprev).
  - assert (i = length (Plain.chain c)) as ->.
    { apply lookup_lt_Some in Hcur. rewrite length_app in Hcur.
      cbn [length] in Hcur. lia. }
    rewrite lookup_app_r in Hcur by lia. rewrite Nat.sub_diag in Hcur.
    rewrite lookup_app_l in Hprev by lia. rewrite Hl in Hprev.
    apply (inj Some) in Hcur. apply (inj Some) in Hprev.
    subst cur prev. split; reflexivity.
Qed.

Lemma Plain_addBlocks_consistent (l : list block_args) (c0 : Plain.Blockchain) :
  Plain.chain c0 <> [] -> Plain.consistent (Plain.chain c0) ->
  exists c, Plain.addBlocks c0 l = Some c
            /\ Plain.consistent (Plain.chain c)
            /\ length (Plain.chain c)
               = (length (Plain.chain c0) + length l)%nat.
Proof.
  revert c0. induction l as [|b l IH]; intros c0 Hne Hc; cbn [Plain.addBlocks].
  - exists c0. split; [reflexivity|]. split; [exact Hc | cbn; lia].
  - destruct (Plain_getLatestBlock_Some c0 Hne) as [latest Hl].
    destruct (Plain.addBlock c0
                (Plain.new_Block (arg_index b) (arg_timestamp b)
                                 (arg_data b) (arg_previousHash b)))
      as [c1|] eqn:Ha.
    2:{ unfold Plain.addBlock in Ha. rewrite Hl in Ha. discriminate. }
    destruct (Plain_addBlock_consistent _ _ _ Ha Hc) as [Hc1 Hlen].
    destruct (IH c1) as (c & Hr & Hcc & Hlenc).
    + intros E. rewrite E in Hlen. cbn in Hlen. lia.
    + exact Hc1.
    + exists c. split; [exact Hr|]. split; [exact Hcc|].
      rewrite Hlenc, Hlen. cbn [length]. lia.
Qed.

(** In the version without proof of work, any sequence of calls
    [addBlock(new Block(...))] on a fresh chain succeeds and leaves one
    more block per call; in the resulting chain every block from index 1
    on stores the digest of its own fields and, as previousHash, the
    stored digest of the block before it. *)
Theorem Plain_chain_consistent (l : list block_args) :
  exists c, Plain.addBlocks Plain.new_Blockchain l = Some c
            /\ Plain.consistent (Plain.chain c)
            /\ length (Plain.chain c) = S (length l).
Proof.
  destruct (Plain_addBlocks_consistent l Plain.new_Blockchain)
    as (c & Hr & Hc & Hlen).
  - discriminate.
  - intros i cur prev Hi Hcur _. apply lookup_lt_Some in Hcur.
    cbn in Hcur. lia.
  - exists c. split; [exact Hr|]. split; [exact Hc | exact Hlen].
Qed.

(** The digests of the chain the test at the end of that version builds:
    the genesis block, then the blocks with amounts 6 and 2. *)
Example Plain_demo_digests :
  option_map (fun c => map Plain.hash (Plain.chain c))
    (Plain.addBlocks Plain.new_Blockchain demo_args)
  = Some
      [ "e1b444918549a9d43e5431bbae23218489b9a455a8f99b3a3e399d6a9db97c91";
        "03b9ea69c648d5e4042ceb697d0cfa9f63751c6deb32f9a2434624a5652c42b0";
        "f4cab7afd8ee8acccd3538eefc7614d65509c2d33230d19d3ce6dd6f39b73963" ].
Proof. vm_compute. reflexivity. Qed.

(** ** Two more edges *)

(** The search writes nothing but nonce and hash: index, timestamp,
    payload and previousHash of the block it returns are those of the
    block it was called on. *)
Theorem mineBlock_keeps_fields (fuel d : nat) (b b' : Block) :
  mineBlock fuel d b = Returns b' ->
  index b' = index b /\ timestamp b' = timestamp b
  /\ data b' = data b /\ previousHash b' = previousHash b.
Proof. exact (mineBlock_fields fuel d b b'). Qed.

Lemma mineBlock_keeps_fields_witness :
  mineBlock 1 5 quick_candidate = Returns quick_mined
  /\ data quick_mined = data quick_candidate.
Proof.
  assert (H : mineBlock 1 5 quick_candidate = Returns quick_mined)
    by (vm_compute; reflexivity).
  split; [exact H|].
  exact (proj1 (proj2 (proj2
           (mineBlock_keeps_fields 1 5 quick_candidate quick_mined H)))).
Defined.

(** isChainValid returns true on every chain of at most one block,
    whatever that block holds: the loop body is never entered. *)
Theorem isChainValid_short (c : Blockchain) :
  (length (chain c) <= 1)%nat -> isChainValid c = true.
Proof.
  unfold isChainValid. destruct (chain c) as [|g [|b rest]]; cbn [length].
  - reflexivity.
  - reflexivity.
  - lia.
Qed.

Lemma isChainValid_short_witness :
  (length (chain (mkBlockchain
      [mkBlock (VNum 9) (VStr "") JNull "" "not a digest" NonceNaN] 5)) <= 1)%nat
  /\ isChainValid (mkBlockchain
       [mkBlock (VNum 9) (VStr "") JNull "" "not a digest" NonceNaN] 5) = true.
Proof.
  split; [cbn; lia|]. apply isChainValid_short. cbn. lia.
Defined.
